(** * The annotation state server (server/server.js)

    A shallow embedding of the Express handlers of [server.js], of the
    Redis hash they persist to and of the Lightcable forwarder, together
    with the properties the specification states about them.

    Conventions
    - A handler is a computation in [M]: it reads and updates a [World]
      (the Redis hash, the [lcws] variable, the timer table, the clock)
      and either returns or throws, exactly as the [async] arrow function
      does; [try_catch] is the [try { } catch (e) { }] of the source.
    - What lies outside [server.js] (the JSON codec of the JavaScript
      runtime, the argument encoding of the Redis client) is the
      [Runtime] class; the theorems hold for every instance of it.
    - Each handler runs without interleaving: two requests are processed
      one after the other. *)

From Stdlib Require Import ZArith Ascii.
From stdpp Require Import gmap strings list fin_maps pretty.

Local Open Scope string_scope.
Local Open Scope Z_scope.
Local Open Scope list_scope.

(** ** JavaScript values *)

(** A JavaScript number that a JSON text can denote: [mantissa * 10 ^ exponent].
    [Date.now()] yields such a number with exponent [0]. *)
Record number := Dec { mantissa : Z; exponent : Z }.

(** The values that reach the handlers: what [express.json()] parses out
    of a request body, plus [undefined] for an absent property. *)
#[warnings="-register-all"]
Inductive value :=
| VUndefined
| VNull
| VBool (b : bool)
| VNum (n : number)
| VStr (s : string)
| VArr (elems : list value)
| VObj (props : list (string * value)).

(** [Boolean(v)], the test behind [!v], [v || w] and [filter(Boolean)]. *)
Definition truthy (v : value) : bool :=
  match v with
  | VUndefined | VNull => false
  | VBool b => b
  | VNum n => negb (mantissa n =? 0)
  | VStr s => negb (String.eqb s "")
  | VArr _ | VObj _ => true
  end.

(** [a || b] *)
Definition js_or (a b : value) : value := if truthy a then a else b.

(** [Array.isArray(v)] *)
Definition Array_isArray (v : value) : bool :=
  match v with VArr _ => true | _ => false end.

(** [v.length] of an array ([0] stands in where the source never asks). *)
Definition array_length (v : value) : nat :=
  match v with VArr l => length l | _ => 0%nat end.

(** Own property lookup in a property list. *)
Fixpoint own_prop (k : string) (ps : list (string * value)) : option value :=
  match ps with
  | [] => None
  | (k', v) :: ps' => if String.eqb k k' then Some v else own_prop k ps'
  end.

(** [v.k] for the property names the handlers read ([id], [lngLat],
    [clientId], [type], ...): an absent property reads as [undefined],
    and so does any property of a primitive or of an array. *)
Definition get (k : string) (v : value) : value :=
  match v with
  | VObj ps => default VUndefined (own_prop k ps)
  | _ => VUndefined
  end.

(** The array index a property name denotes, if it is one: a canonical
    decimal numeral below [2^32 - 1]. Objects list such properties first,
    in ascending order, and the other properties in creation order. *)
Definition digit_of (c : ascii) : option N :=
  let n := N_of_ascii c in
  if ((48 <=? n) && (n <=? 57))%N then Some (n - 48)%N else None.

Fixpoint read_digits (s : string) (acc : N) : option N :=
  match s with
  | EmptyString => Some acc
  | String c s' =>
      match digit_of c with
      | Some d => read_digits s' (10 * acc + d)%N
      | None => None
      end
  end.

Definition array_index (k : string) : option N :=
  match k with
  | EmptyString => None
  | _ =>
      match read_digits k 0%N with
      | Some n =>
          if String.eqb (pretty n) k && (n <? 4294967295)%N then Some n else None
      | None => None
      end
  end.

Definition listed_before (k k' : string) : bool :=
  match array_index k, array_index k' with
  | Some n, Some n' => (n <? n')%N
  | Some _, None => true
  | None, _ => false
  end.

Fixpoint obj_replace (k : string) (v : value) (ps : list (string * value))
  : list (string * value) :=
  match ps with
  | [] => []
  | (k', v') :: ps' =>
      if String.eqb k k' then (k, v) :: ps' else (k', v') :: obj_replace k v ps'
  end.

Fixpoint obj_insert (k : string) (v : value) (ps : list (string * value))
  : list (string * value) :=
  match ps with
  | [] => [(k, v)]
  | (k', v') :: ps' =>
      if listed_before k k' then (k, v) :: ps else (k', v') :: obj_insert k v ps'
  end.

(** [o[k] = v] on a property list: an existing property keeps its place,
    a new one is created. *)
Definition obj_set (k : string) (v : value) (ps : list (string * value))
  : list (string * value) :=
  match own_prop k ps with
  | Some _ => obj_replace k v ps
  | None => obj_insert k v ps
  end.

(** An object literal [{ k1: v1, ..., kn: vn }], properties assigned left
    to right; a spread [...o] contributes the pairs of [spread o]. *)
Definition object_literal (ps : list (string * value)) : value :=
  VObj (foldl (λ acc kv, obj_set kv.1 kv.2 acc) [] ps).

(** Strings are held as their UTF-8 bytes, JavaScript indexes them by
    UTF-16 code unit. A character of the basic plane (one to three bytes)
    is one code unit; a character beyond it (four bytes) is two, a high
    and a low surrogate, each written here in the three-byte form. A byte
    that starts no well-formed sequence counts as a unit of its own. *)
Definition continuation (c : ascii) : bool :=
  let n := N_of_ascii c in ((128 <=? n) && (n <? 192))%N.

Definition three_bytes (u : N) : string :=
  String (ascii_of_N (224 + u / 4096))
    (String (ascii_of_N (128 + (u / 64) mod 64))
       (String (ascii_of_N (128 + u mod 64)) ""))%N.

Definition code_point4 (a b c d : ascii) : N :=
  ((N_of_ascii a - 240) * 262144 + (N_of_ascii b - 128) * 4096
   + (N_of_ascii c - 128) * 64 + (N_of_ascii d - 128))%N.

Fixpoint code_units (s : string) : list string :=
  match s with
  | EmptyString => []
  | String a r =>
      let n := N_of_ascii a in
      match r with
      | String b r1 =>
          if ((192 <=? n) && (n <? 224))%N && continuation b
          then String a (String b "") :: code_units r1
          else
            match r1 with
            | String c r2 =>
                if ((224 <=? n) && (n <? 240))%N && continuation b && continuation c
                then String a (String b (String c "")) :: code_units r2
                else
                  match r2 with
                  | String d r3 =>
                      if ((240 <=? n) && (n <? 248))%N && continuation b
                         && continuation c && continuation d
                         && (65536 <=? code_point4 a b c d)%N
                      then
                        let u := (code_point4 a b c d - 65536)%N in
                        three_bytes (55296 + u / 1024)
                        :: three_bytes (56320 + u mod 1024) :: code_units r3
                      else String a "" :: code_units r
                  | EmptyString => String a "" :: code_units r
                  end
            | EmptyString => String a "" :: code_units r
            end
      | EmptyString => [String a ""]
      end
  end.

(** The own enumerable properties that [...v] copies into an object
    literal: those of an object, the indexed elements of an array, the
    indexed code units of a string, nothing for the other primitives. *)
Definition spread (v : value) : list (string * value) :=
  match v with
  | VObj ps => ps
  | VArr l => imap (λ i x, (pretty i, x)) l
  | VStr s => imap (λ i u, (pretty i, VStr u)) (code_units s)
  | _ => []
  end.

(** ** The runtime outside [server.js] *)

Class Runtime := {
  (** [JSON.stringify(v)]; [server.js] applies it to object literals only *)
  JSON_stringify : value → string;
  (** [JSON.parse(s)]; [None] when it throws a [SyntaxError]. *)
  JSON_parse : string → option value;
  (** [redis.hSet(key, field, value)]: the field the client sends when
      its second argument is a string or a number, the one that gets the
      third argument as its value; [None] for any other second argument. *)
  redis_field : value → option string;
  redis_field_string : ∀ s, redis_field (VStr s) = Some s;
  (** [redis.hSet(key, fieldValues)]: any other second argument is taken
      as a collection of fields and values, and the third argument is
      dropped. The arguments the client sends after the key, or [None]
      when it throws a [TypeError] instead of sending. *)
  redis_map : value → option (list string);
}.

(** ** The world the server runs in *)

(** [lcws.readyState] *)
Inductive ReadyState := CONNECTING | OPEN | CLOSING | CLOSED.

Global Instance ReadyState_eq_dec : EqDecision ReadyState.
Proof. solve_decision. Defined.

(** The [ws] client socket, as far as [server.js] looks at it. *)
Record WebSocket := { readyState : ReadyState }.

(** Commands sent to Redis on the hash [REDIS_ANNOTATIONS_KEY]. *)
Inductive RedisCmd :=
| HGETALL
| HSET (args : list string)
| HGET (field : string)
| HDEL (field : string).

(** What a run leaves behind, oldest first. [Notify ev] records that
    [broadcastToLightcable(ev)] was entered; the others are the effects
    of the program: a Redis command, a frame put on the Lightcable
    socket, a console line. *)
Inductive Effect :=
| Redis (c : RedisCmd)
| Notify (ev : value)
| Frame (text : string)
| Console (line : string).

(** The functions handed to [setTimeout]. *)
Inductive Callback := cb_connectLightcable.

Inductive Exn :=
| TypeError
| RedisError
| SendError.

Record World := mkWorld {
  (** [process.env.LIGHTCABLE_WS_URL || null] *)
  LIGHTCABLE_WS_URL : option string;
  (** [process.env.API_KEY || null] *)
  API_KEY : option string;
  (** the hash stored in Redis at [REDIS_ANNOTATIONS_KEY] *)
  annotations : gmap string string;
  (** whether Redis answers the commands of the request at hand; when it
      does not, they reject *)
  redis_up : bool;
  (** [let lcws = null] *)
  lcws : option WebSocket;
  (** whether [lcws.send] throws when called *)
  send_throws : bool;
  (** pending [setTimeout] entries: delay in milliseconds and callback *)
  timers : list (Z * Callback);
  (** what [Date.now()] returns *)
  clock : Z;
  trace : list Effect;
}.

Definition set_annotations (h : gmap string string) (w : World) : World :=
  mkWorld (LIGHTCABLE_WS_URL w) (API_KEY w) h (redis_up w) (lcws w)
          (send_throws w) (timers w) (clock w) (trace w).

Definition set_lcws (s : option WebSocket) (w : World) : World :=
  mkWorld (LIGHTCABLE_WS_URL w) (API_KEY w) (annotations w) (redis_up w) s
          (send_throws w) (timers w) (clock w) (trace w).

Definition set_timers (ts : list (Z * Callback)) (w : World) : World :=
  mkWorld (LIGHTCABLE_WS_URL w) (API_KEY w) (annotations w) (redis_up w) (lcws w)
          (send_throws w) ts (clock w) (trace w).

Definition set_trace (t : list Effect) (w : World) : World :=
  mkWorld (LIGHTCABLE_WS_URL w) (API_KEY w) (annotations w) (redis_up w) (lcws w)
          (send_throws w) (timers w) (clock w) t.

(** ** Computations that may throw *)

Inductive Outcome (A : Type) :=
| Returned (a : A) (w : World)
| Thrown (e : Exn) (w : World).
Arguments Returned {A} a w.
Arguments Thrown {A} e w.

Definition M (A : Type) : Type := World → Outcome A.

(** [M] is a monad; the handlers are written with stdpp's notations
    [x ← c; k] and [c;; k] for sequencing. *)
Global Instance M_ret : MRet M := λ A a w, Returned a w.

Global Instance M_bind : MBind M := λ A B k c w,
  match c w with
  | Returned a w' => k a w'
  | Thrown e w' => Thrown e w'
  end.

Definition throw {A} (e : Exn) : M A := λ w, Thrown e w.

(** [try { c } catch (e) { h e }] *)
Definition try_catch {A} (c : M A) (h : Exn → M A) : M A :=
  λ w, match c w with
       | Returned a w' => Returned a w'
       | Thrown e w' => h e w'
       end.

Definition emit (e : Effect) : M unit :=
  λ w, Returned () (set_trace (trace w ++ [e]) w).

(** [console.log], [console.warn], [console.error]: the fixed text. *)
Definition console (line : string) : M unit := emit (Console line).

(** [Date.now()] *)
Definition Date_now : M value := λ w, Returned (VNum (Dec (clock w) 0)) w.

Definition read {A} (f : World → A) : M A := λ w, Returned (f w) w.

(** ** The Redis client *)

(** Redis answers a command, or the promise rejects when it does not. *)
Definition redis_answers {A}
    (reply : gmap string string → A * gmap string string) : M A :=
  λ w, if redis_up w
       then Returned (reply (annotations w)).1
                     (set_annotations (reply (annotations w)).2 w)
       else Thrown RedisError w.

(** One command round trip. *)
Definition redis_command {A} (c : RedisCmd)
    (reply : gmap string string → A * gmap string string) : M A :=
  emit (Redis c);; redis_answers reply.

(** [redis.hGetAll(REDIS_ANNOTATIONS_KEY)]: the object field -> payload. *)
Definition redis_hGetAll : M (gmap string string) :=
  redis_command HGETALL (λ h, (h, h)).

(** [redis.hGet(REDIS_ANNOTATIONS_KEY, field)]: the payload, or [null]
    when the hash has no such field. *)
Definition redis_hGet (field : string) : M value :=
  redis_command (HGET field)
    (λ h, (match h !! field with Some s => VStr s | None => VNull end, h)).

(** The arguments of [HSET key f1 v1 f2 v2 ...] after the key, as Redis
    pairs them; [None] when a field is left without a value. *)
Fixpoint hset_pairs (args : list string) : option (list (string * string)) :=
  match args with
  | [] => Some []
  | [_] => None
  | f :: v :: rest => ps ← hset_pairs rest; Some ((f, v) :: ps)
  end.

(** The hash after the pairs were written, the later of two values for
    one field winning. *)
Definition write_pairs (ps : list (string * string)) (h : gmap string string)
  : gmap string string :=
  foldl (λ h fv, <[fv.1 := fv.2]> h) h ps.

(** What the client sends after the key for [hSet(key, field, payload)]. *)
Definition hSet_arguments `{Runtime} (field : value) (payload : string)
  : option (list string) :=
  match redis_field field with
  | Some f => Some [f; payload]
  | None => redis_map field
  end.

(** [redis.hSet(REDIS_ANNOTATIONS_KEY, field, payload)]: the number of
    fields added. Redis answers an [HSET] without a pair, or with a field
    left without a value, with an error, and the promise rejects. *)
Definition redis_hSet `{Runtime} (field : value) (payload : string) : M nat :=
  match hSet_arguments field payload with
  | Some args =>
      match hset_pairs args with
      | Some (p :: ps) =>
          redis_command (HSET args)
            (λ h, ((size (write_pairs (p :: ps) h) - size h)%nat,
                   write_pairs (p :: ps) h))
      | _ => emit (Redis (HSET args));; throw RedisError
      end
  | None => throw TypeError
  end.

(** [redis.hDel(REDIS_ANNOTATIONS_KEY, field)]: the number of fields
    removed. *)
Definition redis_hDel (field : string) : M nat :=
  redis_command (HDEL field)
    (λ h, (match h !! field with Some _ => 1%nat | None => 0%nat end,
           delete field h)).

(** ** The Lightcable forwarder *)

(** [!s] for a configuration string that is [null] when unset. *)
Definition unset (s : option string) : bool :=
  match s with
  | Some u => String.eqb u ""
  | None => true
  end.

Definition assign_lcws (s : option WebSocket) : M unit :=
  λ w, Returned () (set_lcws s w).

Definition assign_timers (ts : list (Z * Callback)) : M unit :=
  λ w, Returned () (set_timers ts w).

(** [setTimeout(cb, ms)] *)
Definition setTimeout (cb : Callback) (ms : Z) : M unit :=
  ts ← read timers; assign_timers (ts ++ [(ms, cb)]).

(** [lcws.on('open', ...)] *)
Definition lcws_on_open : M unit :=
  console "Connected to Lightcable at".

(** [lcws.on('close', ...)] *)
Definition lcws_on_close : M unit :=
  console "Lightcable WS closed, will attempt reconnect in 2s";;
  assign_lcws None;;
  setTimeout cb_connectLightcable 2000.

(** [lcws.on('error', ...)] *)
Definition lcws_on_error : M unit :=
  console "Lightcable WS error".

(** [function connectLightcable()]; a fresh socket is [CONNECTING] and
    carries the three listeners above. *)
Definition connectLightcable : M unit :=
  url ← read LIGHTCABLE_WS_URL;
  if unset url then mret ()
  else assign_lcws (Some {| readyState := CONNECTING |}).

(** [if (LIGHTCABLE_WS_URL) connectLightcable();] at start-up. *)
Definition startup : M unit :=
  url ← read LIGHTCABLE_WS_URL;
  if unset url then mret () else connectLightcable.

(** What the transport reports on the socket held in [lcws]. *)
Inductive SocketEvent := ws_open | ws_close | ws_error.

(** The [ws] socket moves its [readyState] and then calls the listener
    (on an error it is already [CLOSING] when 'error' is emitted). *)
Definition socket_event (ev : SocketEvent) : M unit :=
  s ← read lcws;
  match s with
  | None => mret ()
  | Some _ =>
      match ev with
      | ws_open => assign_lcws (Some {| readyState := OPEN |});; lcws_on_open
      | ws_close => assign_lcws (Some {| readyState := CLOSED |});; lcws_on_close
      | ws_error => assign_lcws (Some {| readyState := CLOSING |});; lcws_on_error
      end
  end.

Definition run_callback (cb : Callback) : M unit :=
  match cb with
  | cb_connectLightcable => connectLightcable
  end.

(** The oldest pending timer expires. *)
Definition timer_fires : M unit :=
  ts ← read timers;
  match ts with
  | [] => mret ()
  | (_, cb) :: ts' => assign_timers ts';; run_callback cb
  end.

(** The states of the specification's forwarder, read off [lcws]. *)
Inductive ForwarderState := Disconnected | Connecting | Connected.

Definition forwarder_state (w : World) : ForwarderState :=
  match lcws w with
  | None => Disconnected
  | Some s =>
      match readyState s with
      | OPEN => Connected
      | CONNECTING => Connecting
      | CLOSING | CLOSED => Disconnected
      end
  end.

(** [lcws.send(text)] *)
Definition lcws_send (text : string) : M unit :=
  λ w, if send_throws w then Thrown SendError w else emit (Frame text) w.

(** [lcws && lcws.readyState === WebSocket.OPEN] *)
Definition lcws_is_open (s : option WebSocket) : bool :=
  match s with
  | Some sock => bool_decide (readyState sock = OPEN)
  | None => false
  end.

(** [function broadcastToLightcable(obj)] *)
Definition broadcastToLightcable `{Runtime} (obj : value) : M unit :=
  emit (Notify obj);;
  s ← read lcws;
  if lcws_is_open s then
    try_catch (lcws_send (JSON_stringify obj)) (λ e, console "LC send err")
  else
    console "Lightcable not connected; skip broadcast".

(** ** The HTTP handlers *)

Record Request := {
  (** [req.header('x-api-key')], [undefined] when absent *)
  header_x_api_key : value;
  (** [req.query.api_key] *)
  query_api_key : value;
  (** [req.params.id], the path segment after [/annotations/]; Express
      matches [:id] against a non-empty segment *)
  params_id : string;
  (** [req.body] *)
  body : value;
}.

Record Response := { status : nat; json : value }.

(** [function requireApiKey(req, res, next)] *)
Definition requireApiKey (req : Request) (next : M Response) : M Response :=
  k ← read API_KEY;
  if unset k then next
  else
    let key := js_or (header_x_api_key req) (query_api_key req) in
    if negb (truthy key)
       || negb (match key with VStr s => String.eqb s (default "" k) | _ => false end)
    then mret {| status := 401;
                 json := object_literal [("error", VStr "Unauthorized")] |}
    else next.

(** Destructuring [const { ... } = v] throws on [undefined] and [null]. *)
Definition destructure (v : value) : M value :=
  match v with
  | VUndefined | VNull => throw TypeError
  | _ => mret v
  end.

Definition internal_error : Response :=
  {| status := 500; json := object_literal [("error", VStr "internal")] |}.

(** [Object.keys(all)] *)
Definition Object_keys (all : gmap string string) : list string :=
  (map_to_list all).*1.

(** [app.get('/annotations', ...)] *)
Definition GET_annotations `{Runtime} (req : Request) : M Response :=
  try_catch
    (all ← redis_hGetAll;
     let list :=
       filter (λ v, truthy v)
         ((λ id, match all !! id ≫= JSON_parse with
                 | Some obj => object_literal (("id", VStr id) :: spread obj)
                 | None => VNull
                 end) <$> Object_keys all) in
     mret {| status := 200; json := VArr list |})
    (λ e, console "GET /annotations err";; mret internal_error).

(** [app.post('/annotations', ...)] *)
Definition POST_annotations `{Runtime} (req : Request) : M Response :=
  try_catch
    (b ← destructure (body req);
     let id := get "id" b in
     let lngLat := get "lngLat" b in
     let clientId := get "clientId" b in
     if negb (truthy id) || negb (Array_isArray lngLat)
        || (array_length lngLat <? 2)%nat
     then mret {| status := 400;
                  json := object_literal
                    [("error", VStr "invalid payload, need id and lngLat")] |}
     else
       now ← Date_now;
       let obj := object_literal [("lngLat", lngLat); ("updatedAt", now);
                                  ("clientId", js_or clientId VNull)] in
       redis_hSet id (JSON_stringify obj);;
       broadcastToLightcable
         (object_literal [("type", VStr "add"); ("id", id); ("lngLat", lngLat);
                          ("clientId", js_or clientId VNull)]);;
       mret {| status := 201; json := object_literal (("id", id) :: spread obj) |})
    (λ e, console "POST /annotations err";; mret internal_error).

(** [app.put('/annotations/:id', ...)] *)
Definition PUT_annotations_id `{Runtime} (req : Request) : M Response :=
  try_catch
    (let id := params_id req in
     b ← destructure (body req);
     let lngLat := get "lngLat" b in
     let clientId := get "clientId" b in
     if negb (Array_isArray lngLat) || (array_length lngLat <? 2)%nat
     then mret {| status := 400;
                  json := object_literal
                    [("error", VStr "invalid payload, need lngLat")] |}
     else
       existingRaw ← redis_hGet id;
       now ← Date_now;
       let obj := object_literal [("lngLat", lngLat); ("updatedAt", now);
                                  ("clientId", js_or clientId VNull)] in
       redis_hSet (VStr id) (JSON_stringify obj);;
       broadcastToLightcable
         (object_literal [("type", VStr "update"); ("id", VStr id);
                          ("lngLat", lngLat); ("clientId", js_or clientId VNull)]);;
       mret {| status := 200;
               json := object_literal
                 (("id", VStr id) :: spread obj
                  ++ [("existed", VBool (truthy existingRaw))]) |})
    (λ e, console "PUT /annotations/:id err";; mret internal_error).

(** [app.delete('/annotations/:id', ...)] *)
Definition DELETE_annotations_id `{Runtime} (req : Request) : M Response :=
  try_catch
    (let id := params_id req in
     removed ← redis_hDel id;
     broadcastToLightcable
       (object_literal [("type", VStr "remove"); ("id", VStr id);
                        ("clientId", VNull)]);;
     mret {| status := 200;
             json := object_literal [("id", VStr id);
                                     ("removed", VBool (0 <? removed)%nat)] |})
    (λ e, console "DELETE /annotations/:id err";; mret internal_error).

(** The routes as registered on [app]: the API key check, then the
    handler. The specification leaves the check to the caller of the
    store operations; the properties below are about the handlers. *)
Definition route_GET_annotations `{Runtime} (req : Request) : M Response :=
  requireApiKey req (GET_annotations req).

Definition route_POST_annotations `{Runtime} (req : Request) : M Response :=
  requireApiKey req (POST_annotations req).

Definition route_PUT_annotations_id `{Runtime} (req : Request) : M Response :=
  requireApiKey req (PUT_annotations_id req).

Definition route_DELETE_annotations_id `{Runtime} (req : Request) : M Response :=
  requireApiKey req (DELETE_annotations_id req).

(** ** A reference runtime

    One instance of [Runtime], used to run the handlers on concrete
    requests: a JSON codec over byte strings (UTF-8 text) and the
    argument encoding of the Redis client for [hSet] (a string or a number
    names one field; an object or an array brings its own fields and
    values). Numbers keep their decimal value; they are not rounded to
    binary64. *)
Module RefJSON.

(** The double quote character. *)
Definition dquote : ascii := ascii_of_N 34.

Definition is_ws (c : ascii) : bool :=
  let n := N_of_ascii c in
  ((n =? 32) || (n =? 9) || (n =? 10) || (n =? 13))%N.

Fixpoint skip_ws (s : string) : string :=
  match s with
  | String c r => if is_ws c then skip_ws r else s
  | EmptyString => s
  end.

Fixpoint take_digits (s : string) : list N * string :=
  match s with
  | String c r =>
      match digit_of c with
      | Some d => let '(ds, r') := take_digits r in (d :: ds, r')
      | None => ([], s)
      end
  | EmptyString => ([], s)
  end.

Definition digits_value (ds : list N) : Z :=
  Z.of_N (foldl (λ acc d, 10 * acc + d)%N 0%N ds).

(** Numbers are kept canonical: an integer as [Dec n 0], a fraction with
    the least number of decimals. *)
Fixpoint strip_zeros (fuel : nat) (m e : Z) : number :=
  match fuel with
  | O => Dec m e
  | S f =>
      if (e <? 0) && (m mod 10 =? 0)
      then strip_zeros f (m / 10) (e + 1)
      else Dec m e
  end.

Definition canonical (m e : Z) : number :=
  if m =? 0 then Dec 0 0
  else if 0 <=? e then Dec (m * 10 ^ e) 0
  else strip_zeros (Z.to_nat (- e)) m e.

Definition is_nil {A} (l : list A) : bool :=
  match l with [] => true | _ => false end.

(** number = [-] int [frac] [exp] *)
Definition parse_number (s : string) : option (number * string) :=
  let '(sign, s1) :=
    match s with String "-" r => (-1, r) | _ => (1, s) end in
  let '(ip, s2) := take_digits s1 in
  match ip with
  | [] => None
  | d :: ds =>
      if (d =? 0)%N && negb (is_nil ds) then None
      else
        let '(fp, s3, frac_ok) :=
          match s2 with
          | String "." r =>
              let '(fp, r') := take_digits r in (fp, r', negb (is_nil fp))
          | _ => ([], s2, true)
          end in
        let '(ex, s4, exp_ok) :=
          match s3 with
          | String c r =>
              if Ascii.eqb c "e" || Ascii.eqb c "E" then
                let '(sg, r1) :=
                  match r with
                  | String "-" r' => (-1, r')
                  | String "+" r' => (1, r')
                  | _ => (1, r)
                  end in
                let '(ed, r2) := take_digits r1 in
                (sg * digits_value ed, r2, negb (is_nil ed))
              else (0, s3, true)
          | EmptyString => (0, s3, true)
          end in
        if frac_ok && exp_ok
        then Some (canonical (sign * digits_value (ip ++ fp))
                             (ex - Z.of_nat (length fp)), s4)
        else None
  end.

(** A string body is read as raw bytes and [\uXXXX] code units; a
    surrogate pair becomes one code point when the bytes are put together. *)
Inductive piece := Byte (c : ascii) | CodeUnit (u : N).

Definition hex_of (c : ascii) : option N :=
  let n := N_of_ascii c in
  if ((48 <=? n) && (n <=? 57))%N then Some (n - 48)%N
  else if ((97 <=? n) && (n <=? 102))%N then Some (n - 87)%N
  else if ((65 <=? n) && (n <=? 70))%N then Some (n - 55)%N
  else None.

Definition hex4 (a b c d : ascii) : option N :=
  match hex_of a, hex_of b, hex_of c, hex_of d with
  | Some x, Some y, Some z, Some t => Some (((x * 16 + y) * 16 + z) * 16 + t)%N
  | _, _, _, _ => None
  end.

(** The characters after the opening quote, up to the closing one. *)
Fixpoint parse_chars (s : string) : option (list piece * string) :=
  match s with
  | EmptyString => None
  | String c r =>
      if Ascii.eqb c dquote then Some ([], r)
      else if Ascii.eqb c "\" then
        match r with
        | String e r' =>
            let simple (b : N) :=
              match parse_chars r' with
              | Some (ps, rest) => Some (Byte (ascii_of_N b) :: ps, rest)
              | None => None
              end in
            if Ascii.eqb e dquote then simple 34%N
            else if Ascii.eqb e "\" then simple 92%N
            else if Ascii.eqb e "/" then simple 47%N
            else if Ascii.eqb e "b" then simple 8%N
            else if Ascii.eqb e "f" then simple 12%N
            else if Ascii.eqb e "n" then simple 10%N
            else if Ascii.eqb e "r" then simple 13%N
            else if Ascii.eqb e "t" then simple 9%N
            else if Ascii.eqb e "u" then
              match r' with
              | String h1 (String h2 (String h3 (String h4 r''))) =>
                  match hex4 h1 h2 h3 h4, parse_chars r'' with
                  | Some u, Some (ps, rest) => Some (CodeUnit u :: ps, rest)
                  | _, _ => None
                  end
              | _ => None
              end
            else None
        | EmptyString => None
        end
      else if (N_of_ascii c <? 32)%N then None
      else
        match parse_chars r with
        | Some (ps, rest) => Some (Byte c :: ps, rest)
        | None => None
        end
  end.

Definition utf8 (cp : N) : string :=
  let b (n : N) := ascii_of_N n in
  (if cp <? 128 then String (b cp) ""
   else if cp <? 2048 then
     String (b (192 + cp / 64)) (String (b (128 + cp mod 64)) "")
   else if cp <? 65536 then
     String (b (224 + cp / 4096))
       (String (b (128 + (cp / 64) mod 64)) (String (b (128 + cp mod 64)) ""))
   else
     String (b (240 + cp / 262144))
       (String (b (128 + (cp / 4096) mod 64))
          (String (b (128 + (cp / 64) mod 64))
             (String (b (128 + cp mod 64)) ""))))%N.

Fixpoint assemble (ps : list piece) : string :=
  match ps with
  | [] => ""
  | Byte c :: ps' => String c (assemble ps')
  | CodeUnit hi :: ps' =>
      match ps' with
      | CodeUnit lo :: ps'' =>
          if ((55296 <=? hi) && (hi <? 56320) && (56320 <=? lo) && (lo <? 57344))%N
          then utf8 (65536 + (hi - 55296) * 1024 + (lo - 56320))%N +:+ assemble ps''
          else utf8 hi +:+ assemble ps'
      | _ => utf8 hi +:+ assemble ps'
      end
  end.

Definition parse_string (s : string) : option (string * string) :=
  match parse_chars s with
  | Some (ps, rest) => Some (assemble ps, rest)
  | None => None
  end.

Definition starts_with (p s : string) : option string :=
  if String.prefix p s
  then Some (String.substring (String.length p) (String.length s - String.length p) s)
  else None.

(** value, elements and members; the fuel bounds the nesting and the
    number of items. *)
Fixpoint parse_value (fuel : nat) (s : string) : option (value * string) :=
  match fuel with
  | O => None
  | S f =>
      match skip_ws s with
      | String c r =>
          if Ascii.eqb c "[" then
            match skip_ws r with
            | String c' r' =>
                if Ascii.eqb c' "]" then Some (VArr [], r')
                else parse_elements f r []
            | EmptyString => None
            end
          else if Ascii.eqb c "{" then
            match skip_ws r with
            | String c' r' =>
                if Ascii.eqb c' "}" then Some (VObj [], r')
                else parse_members f r []
            | EmptyString => None
            end
          else if Ascii.eqb c dquote then
            match parse_string r with
            | Some (str, rest) => Some (VStr str, rest)
            | None => None
            end
          else
            match starts_with "null" (String c r),
                  starts_with "true" (String c r),
                  starts_with "false" (String c r) with
            | Some rest, _, _ => Some (VNull, rest)
            | _, Some rest, _ => Some (VBool true, rest)
            | _, _, Some rest => Some (VBool false, rest)
            | _, _, _ =>
                match parse_number (String c r) with
                | Some (n, rest) => Some (VNum n, rest)
                | None => None
                end
            end
      | EmptyString => None
      end
  end
with parse_elements (fuel : nat) (s : string) (acc : list value)
  : option (value * string) :=
  match fuel with
  | O => None
  | S f =>
      match parse_value f s with
      | Some (v, rest) =>
          match skip_ws rest with
          | String c r =>
              if Ascii.eqb c "," then parse_elements f r (acc ++ [v])
              else if Ascii.eqb c "]" then Some (VArr (acc ++ [v]), r)
              else None
          | EmptyString => None
          end
      | None => None
      end
  end
with parse_members (fuel : nat) (s : string) (acc : list (string * value))
  : option (value * string) :=
  match fuel with
  | O => None
  | S f =>
      match skip_ws s with
      | String q r =>
          if Ascii.eqb q dquote then
            match parse_string r with
            | Some (k, rest) =>
                match skip_ws rest with
                | String c r' =>
                    if Ascii.eqb c ":" then
                      match parse_value f r' with
                      | Some (v, rest') =>
                          match skip_ws rest' with
                          | String c' r'' =>
                              if Ascii.eqb c' ","
                              then parse_members f r'' (obj_set k v acc)
                              else if Ascii.eqb c' "}"
                              then Some (VObj (obj_set k v acc), r'')
                              else None
                          | EmptyString => None
                          end
                      | None => None
                      end
                    else None
                | EmptyString => None
                end
            | None => None
            end
          else None
      | EmptyString => None
      end
  end.

(** [JSON.parse(text)] *)
Definition parse (text : string) : option value :=
  match parse_value (2 * String.length text + 2) text with
  | Some (v, rest) =>
      match skip_ws rest with
      | EmptyString => Some v
      | _ => None
      end
  | None => None
  end.

(** [Number.prototype.toString] in radix 10: plain digits while the
    decimal point lies within 21 digits, a leading [0.] down to [1e-6],
    exponent notation outside. *)
Fixpoint strip_all_zeros (fuel : nat) (m e : Z) : Z * Z :=
  match fuel with
  | O => (m, e)
  | S f => if m mod 10 =? 0 then strip_all_zeros f (m / 10) (e + 1) else (m, e)
  end.

Fixpoint zeros (n : nat) : string :=
  match n with
  | O => ""
  | S n' => String "0" (zeros n')
  end.

Definition number_to_string (x : number) : string :=
  if mantissa x =? 0 then "0"
  else
    let '(m, e) :=
      strip_all_zeros (String.length (pretty (Z.abs (mantissa x))))
                      (Z.abs (mantissa x)) (exponent x) in
    let ds := pretty m in
    let k := Z.of_nat (String.length ds) in
    let n := e + k in
    let sign := if mantissa x <? 0 then "-" else "" in
    sign +:+
    (if (k <=? n) && (n <=? 21) then ds +:+ zeros (Z.to_nat (n - k))
     else if (0 <? n) && (n <=? 21) then
       String.substring 0 (Z.to_nat n) ds +:+ "." +:+
       String.substring (Z.to_nat n) (Z.to_nat (k - n)) ds
     else if (-6 <? n) && (n <=? 0) then
       "0." +:+ zeros (Z.to_nat (- n)) +:+ ds
     else
       String.substring 0 1 ds +:+
       (if k =? 1 then "" else "." +:+ String.substring 1 (Z.to_nat (k - 1)) ds)
       +:+ "e" +:+ (if 0 <=? n - 1 then "+" else "-") +:+ pretty (Z.abs (n - 1))).

Definition hex_digit (n : N) : ascii :=
  ascii_of_N (if (n <? 10)%N then 48 + n else 87 + n)%N.

(** [QuoteJSONString] *)
Fixpoint quote_chars (s : string) : string :=
  match s with
  | EmptyString => ""
  | String c r =>
      let n := N_of_ascii c in
      (if Ascii.eqb c dquote then String "\" (String dquote "")
       else if Ascii.eqb c "\" then "\\"
       else if (n =? 8)%N then "\b"
       else if (n =? 12)%N then "\f"
       else if (n =? 10)%N then "\n"
       else if (n =? 13)%N then "\r"
       else if (n =? 9)%N then "\t"
       else if (n <? 32)%N then
         "\u00" +:+ String (hex_digit (n / 16)) (String (hex_digit (n mod 16)) "")
       else String c "") +:+ quote_chars r
  end.

Definition quote (s : string) : string :=
  String dquote (quote_chars s) +:+ String dquote "".

Definition join (sep : string) (l : list string) : string :=
  match l with
  | [] => ""
  | x :: l' => foldl (λ acc y, acc +:+ sep +:+ y) x l'
  end.

(** [JSON.stringify(v)]: [undefined] prints as [null] inside an array
    and drops the property that holds it inside an object. *)
Fixpoint stringify (v : value) : string :=
  match v with
  | VUndefined | VNull => "null"
  | VBool true => "true"
  | VBool false => "false"
  | VNum n => number_to_string n
  | VStr s => quote s
  | VArr l => "[" +:+ join "," (map stringify l) +:+ "]"
  | VObj ps =>
      "{" +:+
      join ","
        ((fix members (ps : list (string * value)) : list string :=
            match ps with
            | [] => []
            | (_, VUndefined) :: ps' => members ps'
            | (k, x) :: ps' => (quote k +:+ ":" +:+ stringify x) :: members ps'
            end) ps)
      +:+ "}"
  end.

(** The Redis client sends a string argument as it is and a number
    through [toString]; its encoder throws on anything else. *)
Definition field (v : value) : option string :=
  match v with
  | VStr s => Some s
  | VNum n => Some (number_to_string n)
  | _ => None
  end.

(** An array of tuples is flattened, whatever the nesting. *)
Fixpoint tuples (v : value) : list value :=
  match v with
  | VArr l =>
      (fix each (l : list value) : list value :=
         match l with
         | [] => []
         | x :: l' => tuples x ++ each l'
         end) l
  | _ => [v]
  end.

(** A second argument of [hSet] that is no string and no number: the
    elements of an array, flattened; the keys of an object, each followed
    by its value ([Object.keys] of [true] is empty, and throws on [null]
    and [undefined]). *)
Definition field_map (v : value) : option (list string) :=
  match v with
  | VArr _ => mapM field (tuples v)
  | VObj ps => mapM field (flat_map (λ kv, [VStr kv.1; kv.2]) ps)
  | VBool _ => Some []
  | _ => None
  end.

End RefJSON.

Definition reference_runtime : Runtime :=
  {| JSON_stringify := RefJSON.stringify;
     JSON_parse := RefJSON.parse;
     redis_field := RefJSON.field;
     redis_field_string := λ s, eq_refl;
     redis_map := RefJSON.field_map |}.

(** ** Vocabulary of the statements *)

(** The events handed to the forwarder during a run, oldest first. *)
Definition notified (t : list Effect) : list value :=
  omap (λ e, match e with Notify ev => Some ev | _ => None end) t.

(** What [broadcastToLightcable(obj)] does besides being entered: one
    frame when the socket is open and [send] goes through, one console
    line otherwise. *)
Definition forwarder_effects `{Runtime} (obj : value) (w : World) : list Effect :=
  if lcws_is_open (lcws w) then
    if send_throws w then [Console "LC send err"]
    else [Frame (JSON_stringify obj)]
  else [Console "Lightcable not connected; skip broadcast"].

Definition add_trace (es : list Effect) (w : World) : World :=
  set_trace (trace w ++ es) w.

(** The record [server.js] persists for an annotation. *)
Definition stored_record (lngLat : value) (now : Z) (clientId : value) : value :=
  object_literal [("lngLat", lngLat); ("updatedAt", VNum (Dec now 0));
                  ("clientId", clientId)].

(** The events of [server.js]. *)
Definition change_event (type : string) (id lngLat clientId : value) : value :=
  object_literal [("type", VStr type); ("id", id); ("lngLat", lngLat);
                  ("clientId", clientId)].

Definition remove_event (id : string) : value :=
  object_literal [("type", VStr "remove"); ("id", VStr id); ("clientId", VNull)].

(** [v.id === id] *)
Definition has_id (id : string) (v : value) : bool :=
  match get "id" v with
  | VStr s => String.eqb s id
  | _ => false
  end.

(** No stored payload is an object with a property [id] of its own, as
    is the case of the records [server.js] serializes, which have the
    three properties of [stored_record]. *)
Definition payloads_carry_no_id `{Runtime} (h : gmap string string) : Prop :=
  ∀ k s v, h !! k = Some s → JSON_parse s = Some v → own_prop "id" (spread v) = None.

(** [JSON.parse] reads back the record that a write for [req] in [w]
    serializes. *)
Definition reads_back `{Runtime} (req : Request) (w : World) : Prop :=
  let stored := stored_record (get "lngLat" (body req)) (clock w)
                  (js_or (get "clientId" (body req)) VNull) in
  JSON_parse (JSON_stringify stored) = Some stored.

(** The record [GET /annotations] returns for one stored entry, [null]
    when the payload does not parse. *)
Definition listed `{Runtime} (all : gmap string string) (id : string) : value :=
  match all !! id ≫= JSON_parse with
  | Some obj => object_literal (("id", VStr id) :: spread obj)
  | None => VNull
  end.

(** The request has a body to destructure. *)
Definition has_body (req : Request) : Prop :=
  body req ≠ VUndefined ∧ body req ≠ VNull.

(** [position] is missing, not an array, or shorter than two elements. *)
Definition bad_position (lngLat : value) : Prop :=
  Array_isArray lngLat = false ∨ (array_length lngLat < 2)%nat.

(** The world after a handler went through: the Redis commands [cs] were
    answered and left the hash [h'], then [ev] was handed to the
    forwarder. *)
Definition committed `{Runtime} (cs : list RedisCmd) (h' : gmap string string)
    (ev : value) (w : World) : World :=
  add_trace (map Redis cs ++ Notify ev :: forwarder_effects ev w)
            (set_annotations h' w).

(** The same world with another forwarder: another socket in [lcws],
    another fate for [send]. *)
Definition with_forwarder (s : option WebSocket) (b : bool) (w : World) : World :=
  mkWorld (LIGHTCABLE_WS_URL w) (API_KEY w) (annotations w) (redis_up w) s b
          (timers w) (clock w) (trace w).

(** A handler whose response and whose effect on the hash do not depend
    on the forwarder. *)
Definition unaffected_by_forwarder (handler : Request → M Response) : Prop :=
  ∀ req w s b, ∃ r w1 w2,
    handler req w = Returned r w1 ∧
    handler req (with_forwarder s b w) = Returned r w2 ∧
    annotations w1 = annotations w2.

(** A world to run examples in: Redis answers and holds nothing, no
    Lightcable endpoint is configured. *)
Definition quiet_world : World :=
  mkWorld None None ∅ true None false [] 1700000000000 [].

Definition request (id : string) (b : value) : Request :=
  {| header_x_api_key := VUndefined; query_api_key := VUndefined;
     params_id := id; body := b |}.

(** [{ id: "a1", lngLat: [116.39, 39.9] }] and
    [{ id: "a1", lngLat: [116.39] }] *)
Definition body_a1 : value :=
  VObj [("id", VStr "a1");
        ("lngLat", VArr [VNum (Dec 11639 (-2)); VNum (Dec 399 (-1))])].

Definition body_short : value :=
  VObj [("id", VStr "a1"); ("lngLat", VArr [VNum (Dec 11639 (-2))])].

(** [typeof v === 'number'], [typeof v === 'string'] *)
Definition is_number (v : value) : bool :=
  match v with VNum _ => true | _ => false end.

Definition is_string (v : value) : bool :=
  match v with VStr _ => true | _ => false end.

(** An Annotation Record of the specification: a position of two or more
    numbers, a numeric [updatedAt], a [clientId] that is a string or null. *)
Definition valid_record (v : value) : bool :=
  match get "lngLat" v with
  | VArr l => forallb is_number l && (2 <=? length l)%nat
  | _ => false
  end
  && is_number (get "updatedAt" v)
  && match get "clientId" v with VNull | VStr _ => true | _ => false end.

(** The payload parses as a valid record. *)
Definition parses_as_record `{Runtime} (payload : string) : bool :=
  match JSON_parse payload with
  | Some v => valid_record v
  | None => false
  end.

(** What [GET /annotations] makes of one entry of the hash. *)
Definition listed_entry `{Runtime} (kv : string * string) : value :=
  match JSON_parse kv.2 with
  | Some obj => object_literal (("id", VStr kv.1) :: spread obj)
  | None => VNull
  end.

(** The claim that a create followed by a listing yields exactly one
    record with the id, whatever else the hash holds. *)
Definition create_then_list_unique (R : Runtime) : Prop :=
  ∀ req req' w id lngLat,
    get "id" (body req) = VStr id → id ≠ "" →
    get "lngLat" (body req) = VArr lngLat → (2 ≤ length lngLat)%nat →
    redis_up w = true → reads_back req w →
    ∃ r1 w1 l w2,
      POST_annotations req w = Returned r1 w1 ∧ status r1 = 201%nat ∧
      GET_annotations req' w1 = Returned {| status := 200; json := VArr l |} w2 ∧
      ∃ record,
        filter (λ v, has_id id v) l = [record] ∧
        get "lngLat" record = VArr lngLat.

(** [[0, 0]] *)
Definition origin : value := VArr [VNum (Dec 0 0); VNum (Dec 0 0)].

(** A payload that names [a1] as its own id, and the create that stores
    it under the field [zz]: [{ id: { zz: <payload> }, lngLat: [0, 0] }]. *)
Definition foreign_payload : string :=
  RefJSON.stringify (VObj [("id", VStr "a1"); ("lngLat", origin)]).

Definition body_planting : value :=
  VObj [("id", VObj [("zz", VStr foreign_payload)]); ("lngLat", origin)].

Definition planted_world : World :=
  set_annotations (<["zz" := foreign_payload]> ∅) quiet_world.

(** The claim that every field a successful create has changed holds a
    record stamped with the time of that create. *)
Definition every_write_is_stamped (R : Runtime) : Prop :=
  ∀ req w r w',
    POST_annotations req w = Returned r w' → status r = 201%nat →
    ∀ k s, annotations w' !! k = Some s → annotations w !! k ≠ Some s →
      ∃ v, JSON_parse s = Some v ∧ get "updatedAt" v = VNum (Dec (clock w) 0).

(** A create whose id brings a record of its own, stamped [5]:
    [{ id: { a1: <record> }, lngLat: [0, 0] }]. *)
Definition backdated_payload : string :=
  RefJSON.stringify (stored_record origin 5 VNull).

Definition body_backdated : value :=
  VObj [("id", VObj [("a1", VStr backdated_payload)]); ("lngLat", origin)].

(** A create that leaves the empty string under [a1]:
    [{ id: { a1: <empty string> }, lngLat: [0, 0] }], and the hash it
    leaves. *)
Definition body_blanking : value :=
  VObj [("id", VObj [("a1", VStr "")]); ("lngLat", origin)].

Definition blank_world : World :=
  set_annotations (<["a1" := ""]> ∅) quiet_world.

(** The claim that a create or update without a position of two or more
    elements is answered 400 and changes nothing. *)
Definition bad_position_always_rejected (R : Runtime) : Prop :=
  ∀ req w, bad_position (get "lngLat" (body req)) →
    (∃ r, POST_annotations req w = Returned r w ∧ status r = 400%nat) ∧
    (∃ r, PUT_annotations_id req w = Returned r w ∧ status r = 400%nat).

(** The claim that the listing drops every entry whose payload does not
    parse as a valid record. *)
Definition list_drops_invalid_records (R : Runtime) : Prop :=
  ∀ req w, redis_up w = true →
    ∃ l w', GET_annotations req w = Returned {| status := 200; json := VArr l |} w' ∧
      ∀ k s, annotations w !! k = Some s → parses_as_record s = false →
             ∀ r, r ∈ l → has_id k r = false.

(** A hash with a record written by the server, a payload that is not
    JSON and a payload that is JSON but no record. *)
Definition mixed_hash : gmap string string :=
  <["a1" := RefJSON.stringify
              (stored_record (VArr [VNum (Dec 11639 (-2)); VNum (Dec 399 (-1))])
                             1700000000000 VNull)]>
    (<["b" := "oops"]> (<["c" := "null"]> ∅)).

Definition mixed_world : World := set_annotations mixed_hash quiet_world.

(** A request typed as the interface of the specification has it: [id] a
    string, [lngLat] an array of numbers, [clientId] a string when given. *)
Definition typed_request (req : Request) : Prop :=
  let b := body req in
  (get "id" b = VUndefined ∨ is_string (get "id" b) = true) ∧
  (∀ l, get "lngLat" b = VArr l → forallb is_number l = true) ∧
  (get "clientId" b = VUndefined ∨ get "clientId" b = VNull
   ∨ is_string (get "clientId" b) = true).

(** The events on the wire: [{ type, id, lngLat, clientId }] for a
    change, [{ type: "remove", id, clientId: null }] for a removal. *)
Definition change_shape (type : string) (ev : value) : Prop :=
  ∃ id lngLat clientId,
    ev = VObj [("type", VStr type); ("id", VStr id); ("lngLat", VArr lngLat);
               ("clientId", clientId)] ∧
    forallb is_number lngLat = true ∧ (2 ≤ length lngLat)%nat ∧
    (clientId = VNull ∨ is_string clientId = true).

Definition remove_shape (ev : value) : Prop :=
  ∃ id, ev = VObj [("type", VStr "remove"); ("id", VStr id); ("clientId", VNull)].

(** The run of [handler] returns, and the events it hands to the
    forwarder all satisfy [shape]. *)
Definition hands_over (handler : Request → M Response) (shape : value → Prop)
    (req : Request) (w : World) : Prop :=
  ∃ r w' evs,
    handler req w = Returned r w' ∧
    notified (trace w') = notified (trace w) ++ evs ∧
    Forall shape evs.

(** The shape the specification gives to an event: the type under
    [kind], the coordinates under [position], absent on a removal. *)
Definition claimed_shape (ev : value) : Prop :=
  ∃ kind,
    get "kind" ev = VStr kind ∧
    (kind = "add" ∨ kind = "update" ∨ kind = "remove") ∧
    if String.eqb kind "remove" then get "position" ev = VUndefined
    else Array_isArray (get "position" ev) = true.

Definition events_have_claimed_shape (R : Runtime) : Prop :=
  ∀ req w, typed_request req → hands_over POST_annotations claimed_shape req w.

(** The claim, with the names of [server.js], that the events have a
    string [id], numeric coordinates and a [clientId] that is a string or
    null whatever the request. *)
Definition events_are_typed (R : Runtime) : Prop :=
  ∀ req w, hands_over POST_annotations (change_shape "add") req w.

(** [{ id: 5, lngLat: ["x", true], clientId: 7 }] *)
Definition body_untyped : value :=
  VObj [("id", VNum (Dec 5 0)); ("lngLat", VArr [VStr "x"; VBool true]);
        ("clientId", VNum (Dec 7 0))].

(** The forwarder has an endpoint. *)
Definition endpoint_configured (w : World) : Prop :=
  unset (LIGHTCABLE_WS_URL w) = false.

(** How the transport reports the end of a connection: the [ws] socket
    emits 'close' on its own, or 'error' and then 'close'; it never emits
    'error' without the 'close' that follows. *)
Inductive ConnectionEnd := reports_closed | reports_errored.

Definition connection_ends (e : ConnectionEnd) : M unit :=
  match e with
  | reports_closed => socket_event ws_close
  | reports_errored => socket_event ws_error;; socket_event ws_close
  end.

(** One round of losing the connection: the socket opens or not, the
    connection ends, then the reconnect timer expires. *)
Definition reconnect_round (r : bool * ConnectionEnd) : M unit :=
  (if r.1 then socket_event ws_open else mret ());;
  connection_ends r.2;;
  timer_fires.

Fixpoint rounds (rs : list (bool * ConnectionEnd)) : M unit :=
  match rs with
  | [] => mret ()
  | r :: rs' => reconnect_round r;; rounds rs'
  end.

(** A world whose forwarder is connected. *)
Definition live_world : World :=
  mkWorld (Some "ws://localhost:8088/402") None ∅ true
          (Some {| readyState := OPEN |}) false [] 1700000000000 [].

(** All the runs of the three writing handlers, one constructor per path
    through the source. A create whose [id] is a string or a number
    writes its record under that one field ([POST_down], [POST_ok]); with
    any other truthy [id] the client throws ([POST_refused]) or sends the
    fields and values it draws from the id ([POST_map_rejected],
    [POST_map_ok]). *)
Inductive POST_run `{Runtime} (req : Request) (w : World) : Outcome Response → Prop :=
| POST_no_body :
    ¬ has_body req →
    POST_run req w
      (Returned internal_error (add_trace [Console "POST /annotations err"] w))
| POST_invalid :
    has_body req →
    truthy (get "id" (body req)) = false ∨ bad_position (get "lngLat" (body req)) →
    POST_run req w
      (Returned {| status := 400;
                   json := object_literal
                     [("error", VStr "invalid payload, need id and lngLat")] |} w)
| POST_refused lngLat :
    truthy (get "id" (body req)) = true →
    redis_field (get "id" (body req)) = None →
    redis_map (get "id" (body req)) = None →
    get "lngLat" (body req) = VArr lngLat → (2 ≤ length lngLat)%nat →
    POST_run req w
      (Returned internal_error (add_trace [Console "POST /annotations err"] w))
| POST_map_rejected args lngLat :
    truthy (get "id" (body req)) = true →
    redis_field (get "id" (body req)) = None →
    redis_map (get "id" (body req)) = Some args →
    get "lngLat" (body req) = VArr lngLat → (2 ≤ length lngLat)%nat →
    redis_up w = false ∨ hset_pairs args = None ∨ hset_pairs args = Some [] →
    POST_run req w
      (Returned internal_error
         (add_trace [Redis (HSET args); Console "POST /annotations err"] w))
| POST_map_ok args pairs lngLat :
    truthy (get "id" (body req)) = true →
    redis_field (get "id" (body req)) = None →
    redis_map (get "id" (body req)) = Some args →
    get "lngLat" (body req) = VArr lngLat → (2 ≤ length lngLat)%nat →
    hset_pairs args = Some pairs → pairs ≠ [] →
    redis_up w = true →
    let id := get "id" (body req) in
    let clientId := js_or (get "clientId" (body req)) VNull in
    let obj := stored_record (VArr lngLat) (clock w) clientId in
    POST_run req w
      (Returned {| status := 201; json := object_literal (("id", id) :: spread obj) |}
         (committed [HSET args] (write_pairs pairs (annotations w))
            (change_event "add" id (VArr lngLat) clientId) w))
| POST_down key lngLat :
    truthy (get "id" (body req)) = true →
    redis_field (get "id" (body req)) = Some key →
    get "lngLat" (body req) = VArr lngLat → (2 ≤ length lngLat)%nat →
    redis_up w = false →
    POST_run req w
      (Returned internal_error
         (add_trace
            [Redis (HSET [key; JSON_stringify
                      (stored_record (VArr lngLat) (clock w)
                         (js_or (get "clientId" (body req)) VNull))]);
             Console "POST /annotations err"] w))
| POST_ok key lngLat :
    truthy (get "id" (body req)) = true →
    redis_field (get "id" (body req)) = Some key →
    get "lngLat" (body req) = VArr lngLat → (2 ≤ length lngLat)%nat →
    redis_up w = true →
    let id := get "id" (body req) in
    let clientId := js_or (get "clientId" (body req)) VNull in
    let obj := stored_record (VArr lngLat) (clock w) clientId in
    POST_run req w
      (Returned {| status := 201; json := object_literal (("id", id) :: spread obj) |}
         (committed [HSET [key; JSON_stringify obj]]
            (<[key := JSON_stringify obj]> (annotations w))
            (change_event "add" id (VArr lngLat) clientId) w)).

Inductive PUT_run `{Runtime} (req : Request) (w : World) : Outcome Response → Prop :=
| PUT_no_body :
    ¬ has_body req →
    PUT_run req w
      (Returned internal_error (add_trace [Console "PUT /annotations/:id err"] w))
| PUT_invalid :
    has_body req → bad_position (get "lngLat" (body req)) →
    PUT_run req w
      (Returned {| status := 400;
                   json := object_literal
                     [("error", VStr "invalid payload, need lngLat")] |} w)
| PUT_down lngLat :
    get "lngLat" (body req) = VArr lngLat → (2 ≤ length lngLat)%nat →
    redis_up w = false →
    PUT_run req w
      (Returned internal_error
         (add_trace [Redis (HGET (params_id req));
                     Console "PUT /annotations/:id err"] w))
| PUT_ok lngLat :
    get "lngLat" (body req) = VArr lngLat → (2 ≤ length lngLat)%nat →
    redis_up w = true →
    let id := params_id req in
    let clientId := js_or (get "clientId" (body req)) VNull in
    let obj := stored_record (VArr lngLat) (clock w) clientId in
    let existingRaw :=
      match annotations w !! id with Some s => VStr s | None => VNull end in
    PUT_run req w
      (Returned {| status := 200;
                   json := object_literal
                     (("id", VStr id) :: spread obj
                      ++ [("existed", VBool (truthy existingRaw))]) |}
         (committed [HGET id; HSET [id; JSON_stringify obj]]
            (<[id := JSON_stringify obj]> (annotations w))
            (change_event "update" (VStr id) (VArr lngLat) clientId) w)).

Inductive DELETE_run `{Runtime} (req : Request) (w : World) : Outcome Response → Prop :=
| DELETE_down :
    redis_up w = false →
    DELETE_run req w
      (Returned internal_error
         (add_trace [Redis (HDEL (params_id req));
                     Console "DELETE /annotations/:id err"] w))
| DELETE_ok :
    redis_up w = true →
    let id := params_id req in
    let removed :=
      match annotations w !! id with Some _ => 1%nat | None => 0%nat end in
    DELETE_run req w
      (Returned {| status := 200;
                   json := object_literal
                     [("id", VStr id); ("removed", VBool (0 <? removed)%nat)] |}
         (committed [HDEL id] (delete id (annotations w)) (remove_event id) w)).

(** ** The routes together, and what happens around them *)

(** [app.get('/health', ...)]: registered without [requireApiKey]. *)
Definition GET_health (req : Request) : M Response :=
  mret {| status := 200; json := object_literal [("ok", VBool true)] |}.

(** The routes registered on [app]. *)
Inductive Endpoint := ep_list | ep_create | ep_update | ep_delete | ep_health.

Definition handler `{Runtime} (e : Endpoint) : Request → M Response :=
  match e with
  | ep_list => GET_annotations
  | ep_create => POST_annotations
  | ep_update => PUT_annotations_id
  | ep_delete => DELETE_annotations_id
  | ep_health => GET_health
  end.

(** What [app] runs for a request: the handler behind [requireApiKey],
    and [/health] on its own. *)
Definition app `{Runtime} (e : Endpoint) (req : Request) : M Response :=
  match e with
  | ep_health => GET_health req
  | _ => requireApiKey req (handler e req)
  end.

(** [req.header('x-api-key') || req.query.api_key] *)
Definition presented_key (req : Request) : value :=
  js_or (header_x_api_key req) (query_api_key req).

(** No key is required, or the key presented is the one required. *)
Definition authorized (req : Request) (w : World) : Prop :=
  unset (API_KEY w) = true ∨ ∃ k, API_KEY w = Some k ∧ presented_key req = VStr k.

Definition unauthorized_response : Response :=
  {| status := 401; json := object_literal [("error", VStr "Unauthorized")] |}.

(** What a handler leaves alone: the configuration, the forwarder's
    socket and timers, the clock and the state of Redis' availability. *)
Definition keeps_surroundings (w w' : World) : Prop :=
  LIGHTCABLE_WS_URL w' = LIGHTCABLE_WS_URL w ∧ API_KEY w' = API_KEY w ∧
  redis_up w' = redis_up w ∧ lcws w' = lcws w ∧
  send_throws w' = send_throws w ∧ timers w' = timers w ∧ clock w' = clock w.

(** The frames put on the Lightcable socket, oldest first. *)
Definition frames (t : list Effect) : list string :=
  omap (λ e, match e with Frame text => Some text | _ => None end) t.

(** The arguments of the [HSET] commands sent to Redis, oldest first. *)
Definition hsets (t : list Effect) : list (list string) :=
  omap (λ e, match e with Redis (HSET args) => Some args | _ => None end) t.

Definition is_console (e : Effect) : bool :=
  match e with Console _ => true | _ => false end.

(** A payload the handlers may write: the serialization of a record
    stamped [now] whose position has two or more elements and whose
    [clientId] is null or truthy. *)
Definition record_payload `{Runtime} (now : Z) (payload : string) : Prop :=
  ∃ l c, payload = JSON_stringify (stored_record (VArr l) now c) ∧
         (2 ≤ length l)%nat ∧ (c = VNull ∨ truthy c = true).

(** What the world outside does between two callbacks: time passes,
    Redis comes and goes, the socket starts or stops accepting frames. *)
Definition set_environment (now : Z) (up throws : bool) (w : World) : World :=
  mkWorld (LIGHTCABLE_WS_URL w) (API_KEY w) (annotations w) up (lcws w) throws
          (timers w) now (trace w).

(** The field of the hash a request is about, if any: for a create, the
    one field the client makes of a string or number [id]. *)
Definition written_field `{Runtime} (e : Endpoint) (req : Request) : option string :=
  match e with
  | ep_create => redis_field (get "id" (body req))
  | ep_update | ep_delete => Some (params_id req)
  | ep_list | ep_health => None
  end.

(** The fields of the hash a request may change: the one it is about,
    or, for a create with any other [id], the fields the client draws
    from the id. *)
Definition written_fields `{Runtime} (e : Endpoint) (req : Request) : list string :=
  match written_field e req with
  | Some f => [f]
  | None =>
      match e with
      | ep_create =>
          match redis_map (get "id" (body req)) ≫= hset_pairs with
          | Some ps => ps.*1
          | None => []
          end
      | _ => []
      end
  end.

(** A position that passes the check of create and update. *)
Definition good_position (lngLat : value) : Prop :=
  ∃ l, lngLat = VArr l ∧ (2 ≤ length l)%nat.

(** The callbacks the event loop runs, one at a time. *)
Inductive Action :=
| request_arrives (e : Endpoint) (req : Request)
| socket_reports (ev : SocketEvent)
| timer_expires
| world_moves (now : Z) (up throws : bool).

Definition perform `{Runtime} (a : Action) : M unit :=
  match a with
  | request_arrives e req => app e req;; mret ()
  | socket_reports ev => socket_event ev
  | timer_expires => timer_fires
  | world_moves now up throws => λ w, Returned () (set_environment now up throws w)
  end.

Fixpoint perform_all `{Runtime} (acts : list Action) : M unit :=
  match acts with
  | [] => mret ()
  | a :: acts' => perform a;; perform_all acts'
  end.

(** The forwarder never holds a socket and a pending reconnect at once,
    and never more than one reconnect, due 2000 ms after it was set. *)
Definition reconnect_discipline (w : World) : Prop :=
  match lcws w with
  | Some _ => timers w = []
  | None => timers w = [] ∨ timers w = [(2000, cb_connectLightcable)]
  end.

(** A world in which an API key is required. *)
Definition guarded_world : World :=
  mkWorld None (Some "s3cret") ∅ true None false [] 1700000000000 [].

Definition request_with_key (header query : value) (id : string) (b : value)
  : Request :=
  {| header_x_api_key := header; query_api_key := query;
     params_id := id; body := b |}.

(** * Lemmas *)

(** ** Properties of objects *)

Lemma own_prop_obj_replace k k' v ps :
  own_prop k (obj_replace k' v ps)
  = if String.eqb k k'
    then match own_prop k' ps with Some _ => Some v | None => None end
    else own_prop k ps.
Proof.
  induction ps as [| [k0 v0] ps IH]; simpl.
  - by destruct (String.eqb k k').
  - destruct (String.eqb_spec k' k0) as [-> | Hne]; simpl.
    + by destruct (String.eqb k k0).
    + rewrite IH. destruct (String.eqb_spec k k') as [-> | Hne'].
      * by destruct (String.eqb_spec k' k0).
      * done.
Qed.

Lemma own_prop_obj_insert k k' v ps :
  own_prop k' ps = None →
  own_prop k (obj_insert k' v ps) = if String.eqb k k' then Some v else own_prop k ps.
Proof.
  induction ps as [| [k0 v0] ps IH]; simpl; [done |].
  destruct (String.eqb_spec k' k0) as [-> | Hne]; [done |]. intros Hnone.
  destruct (listed_before k' k0); simpl; [done |].
  rewrite IH by done.
  destruct (String.eqb_spec k k') as [-> | Hne']; [| done].
  by destruct (String.eqb_spec k' k0).
Qed.

(** Reading back after an assignment. *)
Lemma own_prop_obj_set k k' v ps :
  own_prop k (obj_set k' v ps) = if String.eqb k k' then Some v else own_prop k ps.
Proof.
  unfold obj_set. destruct (own_prop k' ps) eqn:Hk'.
  - rewrite own_prop_obj_replace, Hk'. done.
  - by apply own_prop_obj_insert.
Qed.

(** A property that the rest of a literal does not assign keeps the value
    it had. *)
Lemma own_prop_literal_rest k acc ps :
  own_prop k ps = None →
  own_prop k (foldl (λ acc kv, obj_set kv.1 kv.2 acc) acc ps) = own_prop k acc.
Proof.
  revert acc. induction ps as [| [k0 v0] ps IH]; intros acc; simpl; [done |].
  destruct (String.eqb_spec k k0) as [-> | Hne]; [done |]. intros Hnone.
  rewrite IH by done. rewrite own_prop_obj_set.
  by destruct (String.eqb_spec k k0).
Qed.

(** [{ id, ...o }.id] is [id] when [o] has no [id] of its own. *)
Lemma get_id_literal (x : value) ps :
  own_prop "id" ps = None → get "id" (object_literal (("id", x) :: ps)) = x.
Proof.
  intros Hnone. unfold get, object_literal. simpl.
  by rewrite own_prop_literal_rest.
Qed.

(** ** Running the handlers *)

(** Two descriptions of a world agree once the record updates are
    carried out and the trace is associated to the right. *)
Ltac world_eq :=
  unfold committed, forwarder_effects, add_trace, set_annotations, set_lcws,
    set_timers, set_trace;
  simpl; rewrite <- ?app_assoc; simpl; reflexivity.

Section Running.
Context `{Runtime}.

Lemma run_emit e w : emit e w = Returned () (add_trace [e] w).
Proof. reflexivity. Qed.

Lemma run_broadcast obj w :
  broadcastToLightcable obj w
  = Returned () (add_trace (Notify obj :: forwarder_effects obj w) w).
Proof.
  unfold broadcastToLightcable, forwarder_effects, mbind, M_bind, read,
    try_catch, lcws_send, console.
  rewrite run_emit. simpl.
  destruct (lcws_is_open (lcws w)); simpl;
    [destruct (send_throws w); simpl |];
    unfold emit, add_trace, set_trace; simpl; rewrite <- ?app_assoc; reflexivity.
Qed.

Lemma run_redis_command {A} c (reply : gmap string string → A * gmap string string) w :
  redis_command c reply w
  = if redis_up w
    then Returned (reply (annotations w)).1
           (set_annotations (reply (annotations w)).2 (add_trace [Redis c] w))
    else Thrown RedisError (add_trace [Redis c] w).
Proof.
  unfold redis_command, redis_answers, mbind, M_bind. rewrite run_emit. simpl.
  destruct (redis_up w); reflexivity.
Qed.

Lemma run_destructure v :
  v ≠ VUndefined → v ≠ VNull → destructure v = mret v.
Proof. by destruct v. Qed.

(** [hSet] with a string or number field is one [HSET] of one pair;
    with any other field it is an [HSET] of the field's own pairs, which
    Redis answers when there is at least one, each with its value. *)
Lemma run_hSet_field id key payload w :
  redis_field id = Some key →
  redis_hSet id payload w
  = if redis_up w
    then Returned (size (<[key := payload]> (annotations w)) - size (annotations w))%nat
           (set_annotations (<[key := payload]> (annotations w))
              (add_trace [Redis (HSET [key; payload])] w))
    else Thrown RedisError (add_trace [Redis (HSET [key; payload])] w).
Proof.
  intros Hf. unfold redis_hSet, hSet_arguments. rewrite Hf. simpl.
  apply run_redis_command.
Qed.

Lemma run_hSet_map id args pairs payload w :
  redis_field id = None → redis_map id = Some args →
  hset_pairs args = Some pairs → pairs ≠ [] →
  redis_hSet id payload w
  = if redis_up w
    then Returned (size (write_pairs pairs (annotations w)) - size (annotations w))%nat
           (set_annotations (write_pairs pairs (annotations w))
              (add_trace [Redis (HSET args)] w))
    else Thrown RedisError (add_trace [Redis (HSET args)] w).
Proof.
  intros Hf Hm Hp Hne. unfold redis_hSet, hSet_arguments. rewrite Hf, Hm, Hp.
  destruct pairs as [| p ps]; [done |]. apply run_redis_command.
Qed.

Lemma run_hSet_rejected id args payload w :
  redis_field id = None → redis_map id = Some args →
  redis_up w = false ∨ hset_pairs args = None ∨ hset_pairs args = Some [] →
  redis_hSet id payload w = Thrown RedisError (add_trace [Redis (HSET args)] w).
Proof.
  intros Hf Hm Hwhy. unfold redis_hSet, hSet_arguments. rewrite Hf, Hm.
  destruct (hset_pairs args) as [[| p ps] |] eqn:Hp; try reflexivity.
  destruct Hwhy as [Hup | [? | ?]]; try done.
  rewrite run_redis_command. by rewrite Hup.
Qed.

Lemma run_hSet_refused id payload w :
  redis_field id = None → redis_map id = None →
  redis_hSet id payload w = Thrown TypeError w.
Proof.
  intros Hf Hm. unfold redis_hSet, hSet_arguments. by rewrite Hf, Hm.
Qed.

(** The hash outside the fields written. *)
Lemma lookup_write_pairs pairs (h : gmap string string) k :
  k ∉ pairs.*1 → write_pairs pairs h !! k = h !! k.
Proof.
  revert h. induction pairs as [| [f v] pairs IH]; intros h Hk; [done |].
  simpl in *. apply not_elem_of_cons in Hk as [Hne Hk].
  unfold write_pairs in *. simpl. rewrite IH by done.
  by apply lookup_insert_ne.
Qed.

(** The successful run of [POST /annotations]. *)
Lemma run_POST_ok req w id key lngLat :
  get "id" (body req) = id → truthy id = true → redis_field id = Some key →
  get "lngLat" (body req) = VArr lngLat → (2 ≤ length lngLat)%nat →
  redis_up w = true →
  let clientId := js_or (get "clientId" (body req)) VNull in
  let obj := stored_record (VArr lngLat) (clock w) clientId in
  POST_annotations req w
  = Returned {| status := 201; json := object_literal (("id", id) :: spread obj) |}
      (committed [HSET [key; JSON_stringify obj]]
         (<[key := JSON_stringify obj]> (annotations w))
         (change_event "add" id (VArr lngLat) clientId) w).
Proof.
  intros Hid Ht Hf Hl Hlen Hup clientId obj.
  unfold POST_annotations, try_catch.
  rewrite run_destructure; [| by intros E; rewrite E in Hl ..].
  unfold mbind, M_bind, mret, M_ret. simpl.
  rewrite Hid, Ht, Hl. simpl.
  destruct (Nat.ltb_spec (length lngLat) 2) as [|_]; [lia |]. simpl.
  rewrite (run_hSet_field _ key) by done. rewrite Hup.
  rewrite run_broadcast. f_equal. world_eq.
Qed.

(** The run of a create whose [id] is no string and no number, and from
    which the client draws one pair or more. *)
Lemma run_POST_map_ok req w id args pairs lngLat :
  get "id" (body req) = id → truthy id = true →
  redis_field id = None → redis_map id = Some args →
  get "lngLat" (body req) = VArr lngLat → (2 ≤ length lngLat)%nat →
  hset_pairs args = Some pairs → pairs ≠ [] →
  redis_up w = true →
  let clientId := js_or (get "clientId" (body req)) VNull in
  let obj := stored_record (VArr lngLat) (clock w) clientId in
  POST_annotations req w
  = Returned {| status := 201; json := object_literal (("id", id) :: spread obj) |}
      (committed [HSET args] (write_pairs pairs (annotations w))
         (change_event "add" id (VArr lngLat) clientId) w).
Proof.
  intros Hid Ht Hf Hm Hl Hlen Hp Hne Hup clientId obj.
  unfold POST_annotations, try_catch.
  rewrite run_destructure; [| by intros E; rewrite E in Hl ..].
  unfold mbind, M_bind, mret, M_ret. simpl.
  rewrite Hid, Ht, Hl. simpl.
  destruct (Nat.ltb_spec (length lngLat) 2) as [|_]; [lia |]. simpl.
  rewrite (run_hSet_map _ args pairs) by done. rewrite Hup.
  rewrite run_broadcast. f_equal. world_eq.
Qed.

Lemma run_POST_map_rejected req w args lngLat :
  truthy (get "id" (body req)) = true →
  redis_field (get "id" (body req)) = None →
  redis_map (get "id" (body req)) = Some args →
  get "lngLat" (body req) = VArr lngLat → (2 ≤ length lngLat)%nat →
  redis_up w = false ∨ hset_pairs args = None ∨ hset_pairs args = Some [] →
  POST_annotations req w
  = Returned internal_error
      (add_trace [Redis (HSET args); Console "POST /annotations err"] w).
Proof.
  intros Ht Hf Hm Hl Hlen Hwhy. unfold POST_annotations, try_catch.
  rewrite run_destructure; [| by intros E; rewrite E in Hl ..].
  unfold mbind, M_bind, mret, M_ret. simpl.
  rewrite Ht, Hl. simpl.
  destruct (Nat.ltb_spec (length lngLat) 2) as [|_]; [lia |]. simpl.
  rewrite (run_hSet_rejected _ args) by done.
  simpl. f_equal. world_eq.
Qed.

(** Its other runs: a rejected payload, no body to destructure, an [id]
    on which the Redis client throws, Redis not answering. *)
Lemma run_POST_invalid req w :
  has_body req →
  truthy (get "id" (body req)) = false ∨ bad_position (get "lngLat" (body req)) →
  POST_annotations req w
  = Returned {| status := 400;
                json := object_literal
                  [("error", VStr "invalid payload, need id and lngLat")] |} w.
Proof.
  intros [Hu Hn] Hbad. unfold POST_annotations, try_catch.
  rewrite run_destructure by done.
  unfold mbind, M_bind, mret, M_ret. simpl.
  destruct Hbad as [-> | [-> | Hlen]]; simpl; [done | by rewrite orb_true_r |].
  destruct (Nat.ltb_spec (array_length (get "lngLat" (body req))) 2); [| lia].
  by rewrite !orb_true_r.
Qed.

Lemma run_POST_no_body req w :
  ¬ has_body req →
  POST_annotations req w
  = Returned internal_error (add_trace [Console "POST /annotations err"] w).
Proof.
  intros Hb. unfold POST_annotations, try_catch, has_body in *.
  destruct (body req); try (exfalso; apply Hb; by split); reflexivity.
Qed.

Lemma run_POST_refused req w lngLat :
  truthy (get "id" (body req)) = true → redis_field (get "id" (body req)) = None →
  redis_map (get "id" (body req)) = None →
  get "lngLat" (body req) = VArr lngLat → (2 ≤ length lngLat)%nat →
  POST_annotations req w
  = Returned internal_error (add_trace [Console "POST /annotations err"] w).
Proof.
  intros Ht Hf Hm Hl Hlen. unfold POST_annotations, try_catch.
  rewrite run_destructure; [| by intros E; rewrite E in Hl ..].
  unfold mbind, M_bind, mret, M_ret. simpl.
  rewrite Ht, Hl. simpl.
  destruct (Nat.ltb_spec (length lngLat) 2) as [|_]; [lia |]. simpl.
  rewrite run_hSet_refused by done. reflexivity.
Qed.

Lemma run_POST_down req w key lngLat :
  truthy (get "id" (body req)) = true →
  redis_field (get "id" (body req)) = Some key →
  get "lngLat" (body req) = VArr lngLat → (2 ≤ length lngLat)%nat →
  redis_up w = false →
  let obj := stored_record (VArr lngLat) (clock w)
               (js_or (get "clientId" (body req)) VNull) in
  POST_annotations req w
  = Returned internal_error
      (add_trace [Redis (HSET [key; JSON_stringify obj]);
                  Console "POST /annotations err"] w).
Proof.
  intros Ht Hf Hl Hlen Hup obj. unfold POST_annotations, try_catch.
  rewrite run_destructure; [| by intros E; rewrite E in Hl ..].
  unfold mbind, M_bind, mret, M_ret. simpl.
  rewrite Ht, Hl. simpl.
  destruct (Nat.ltb_spec (length lngLat) 2) as [|_]; [lia |]. simpl.
  rewrite (run_hSet_field _ key) by done. rewrite Hup.
  simpl. f_equal. world_eq.
Qed.

(** The runs of [PUT /annotations/:id]. *)
Lemma run_PUT_ok req w lngLat :
  get "lngLat" (body req) = VArr lngLat → (2 ≤ length lngLat)%nat →
  redis_up w = true →
  let id := params_id req in
  let clientId := js_or (get "clientId" (body req)) VNull in
  let obj := stored_record (VArr lngLat) (clock w) clientId in
  let existingRaw :=
    match annotations w !! id with Some s => VStr s | None => VNull end in
  PUT_annotations_id req w
  = Returned {| status := 200;
                json := object_literal
                  (("id", VStr id) :: spread obj
                   ++ [("existed", VBool (truthy existingRaw))]) |}
      (committed [HGET id; HSET [id; JSON_stringify obj]]
         (<[id := JSON_stringify obj]> (annotations w))
         (change_event "update" (VStr id) (VArr lngLat) clientId) w).
Proof.
  intros Hl Hlen Hup id clientId obj existingRaw.
  unfold PUT_annotations_id, try_catch.
  rewrite run_destructure; [| by intros E; rewrite E in Hl ..].
  unfold mbind, M_bind, mret, M_ret. simpl.
  rewrite Hl. simpl.
  destruct (Nat.ltb_spec (length lngLat) 2) as [|_]; [lia |]. simpl.
  unfold redis_hGet. rewrite run_redis_command. simpl. rewrite Hup.
  rewrite (run_hSet_field _ id) by apply redis_field_string. simpl.
  rewrite Hup, run_broadcast. f_equal. world_eq.
Qed.

Lemma run_PUT_invalid req w :
  has_body req → bad_position (get "lngLat" (body req)) →
  PUT_annotations_id req w
  = Returned {| status := 400;
                json := object_literal
                  [("error", VStr "invalid payload, need lngLat")] |} w.
Proof.
  intros [Hu Hn] Hbad. unfold PUT_annotations_id, try_catch.
  rewrite run_destructure by done.
  unfold mbind, M_bind, mret, M_ret. simpl.
  destruct Hbad as [-> | Hlen]; simpl; [done |].
  destruct (Nat.ltb_spec (array_length (get "lngLat" (body req))) 2); [| lia].
  by rewrite !orb_true_r.
Qed.

Lemma run_PUT_no_body req w :
  ¬ has_body req →
  PUT_annotations_id req w
  = Returned internal_error (add_trace [Console "PUT /annotations/:id err"] w).
Proof.
  intros Hb. unfold PUT_annotations_id, try_catch, has_body in *.
  destruct (body req); try (exfalso; apply Hb; by split); reflexivity.
Qed.

Lemma run_PUT_down req w lngLat :
  get "lngLat" (body req) = VArr lngLat → (2 ≤ length lngLat)%nat →
  redis_up w = false →
  PUT_annotations_id req w
  = Returned internal_error
      (add_trace [Redis (HGET (params_id req));
                  Console "PUT /annotations/:id err"] w).
Proof.
  intros Hl Hlen Hup. unfold PUT_annotations_id, try_catch.
  rewrite run_destructure; [| by intros E; rewrite E in Hl ..].
  unfold mbind, M_bind, mret, M_ret. simpl.
  rewrite Hl. simpl.
  destruct (Nat.ltb_spec (length lngLat) 2) as [|_]; [lia |]. simpl.
  unfold redis_hGet. rewrite run_redis_command. simpl. rewrite Hup.
  simpl. f_equal. world_eq.
Qed.

(** The runs of [DELETE /annotations/:id]. *)
Lemma run_DELETE_ok req w :
  redis_up w = true →
  let id := params_id req in
  let removed :=
    match annotations w !! id with Some _ => 1%nat | None => 0%nat end in
  DELETE_annotations_id req w
  = Returned {| status := 200;
                json := object_literal
                  [("id", VStr id); ("removed", VBool (0 <? removed)%nat)] |}
      (committed [HDEL id] (delete id (annotations w)) (remove_event id) w).
Proof.
  intros Hup id removed. unfold DELETE_annotations_id, try_catch.
  unfold mbind, M_bind, mret, M_ret, redis_hDel. simpl.
  rewrite run_redis_command. simpl. rewrite Hup, run_broadcast.
  f_equal. world_eq.
Qed.

Lemma run_DELETE_down req w :
  redis_up w = false →
  DELETE_annotations_id req w
  = Returned internal_error
      (add_trace [Redis (HDEL (params_id req));
                  Console "DELETE /annotations/:id err"] w).
Proof.
  intros Hup. unfold DELETE_annotations_id, try_catch.
  unfold mbind, M_bind, mret, M_ret, redis_hDel. simpl.
  rewrite run_redis_command. simpl. rewrite Hup. simpl. f_equal. world_eq.
Qed.

(** The runs of [GET /annotations]. *)
Lemma run_GET_ok req w :
  redis_up w = true →
  GET_annotations req w
  = Returned {| status := 200;
                json := VArr (filter (λ v, truthy v)
                                (listed (annotations w) <$> Object_keys (annotations w))) |}
      (add_trace [Redis HGETALL] w).
Proof.
  intros Hup. unfold GET_annotations, try_catch.
  unfold mbind, M_bind, mret, M_ret, redis_hGetAll. simpl.
  rewrite run_redis_command. simpl. rewrite Hup. f_equal; world_eq.
Qed.

Lemma run_GET_down req w :
  redis_up w = false →
  GET_annotations req w
  = Returned internal_error
      (add_trace [Redis HGETALL; Console "GET /annotations err"] w).
Proof.
  intros Hup. unfold GET_annotations, try_catch.
  unfold mbind, M_bind, mret, M_ret, redis_hGetAll. simpl.
  rewrite run_redis_command. simpl. rewrite Hup. simpl. f_equal. world_eq.
Qed.

Lemma bad_position_dec (v : value) :
  bad_position v ∨ ∃ l, v = VArr l ∧ (2 ≤ length l)%nat.
Proof.
  unfold bad_position.
  destruct v as [| | | | | l |]; simpl; try (left; left; reflexivity).
  destruct (le_lt_dec 2 (length l)); [right; eauto | left; by right].
Qed.

Lemma has_body_dec (req : Request) : has_body req ∨ ¬ has_body req.
Proof.
  unfold has_body.
  destruct (body req);
    first [left; split; discriminate | right; intros [? ?]; congruence].
Qed.

(** Every run of a writing handler is one of the listed runs. *)
Lemma POST_runs req w : POST_run req w (POST_annotations req w).
Proof.
  destruct (has_body_dec req) as [Hb | Hb];
    [| rewrite run_POST_no_body by done; by constructor].
  destruct (bad_position_dec (get "lngLat" (body req))) as [Hbad | (l & Hl & Hlen)];
    [rewrite run_POST_invalid by auto; constructor; auto |].
  destruct (truthy (get "id" (body req))) eqn:Ht;
    [| rewrite run_POST_invalid by auto; constructor; auto].
  destruct (redis_field (get "id" (body req))) as [key |] eqn:Hf.
  { destruct (redis_up w) eqn:Hup.
    - erewrite run_POST_ok by done. by apply POST_ok.
    - erewrite run_POST_down by done. by apply POST_down. }
  destruct (redis_map (get "id" (body req))) as [args |] eqn:Hm;
    [| erewrite run_POST_refused by done; by econstructor].
  destruct (hset_pairs args) as [[| p ps] |] eqn:Hp.
  - rewrite (run_POST_map_rejected req w args l) by auto.
    apply (POST_map_rejected req w args l); auto.
  - destruct (redis_up w) eqn:Hup.
    + erewrite run_POST_map_ok by done. by eapply POST_map_ok.
    + rewrite (run_POST_map_rejected req w args l) by auto.
      apply (POST_map_rejected req w args l); auto.
  - rewrite (run_POST_map_rejected req w args l) by auto.
    apply (POST_map_rejected req w args l); auto.
Qed.

Lemma PUT_runs req w : PUT_run req w (PUT_annotations_id req w).
Proof.
  destruct (has_body_dec req) as [Hb | Hb];
    [| rewrite run_PUT_no_body by done; by constructor].
  destruct (bad_position_dec (get "lngLat" (body req))) as [Hbad | (l & Hl & Hlen)];
    [rewrite run_PUT_invalid by auto; constructor; auto |].
  destruct (redis_up w) eqn:Hup.
  - erewrite run_PUT_ok by done. by apply PUT_ok.
  - erewrite run_PUT_down by done. by eapply PUT_down.
Qed.

Lemma DELETE_runs req w : DELETE_run req w (DELETE_annotations_id req w).
Proof.
  destruct (redis_up w) eqn:Hup.
  - rewrite run_DELETE_ok by done. by apply DELETE_ok.
  - rewrite run_DELETE_down by done. by apply DELETE_down.
Qed.

(** What a run adds to the list of notified events. *)
Lemma notified_app t t' : notified (t ++ t') = notified t ++ notified t'.
Proof. apply omap_app. Qed.

Lemma notified_redis cs : notified (map Redis cs) = [].
Proof. by induction cs. Qed.

Lemma notified_forwarder_effects ev w : notified (forwarder_effects ev w) = [].
Proof.
  unfold forwarder_effects.
  by destruct (lcws_is_open (lcws w)), (send_throws w).
Qed.

Lemma notified_committed cs h' ev w :
  notified (trace (committed cs h' ev w)) = notified (trace w) ++ [ev].
Proof.
  unfold committed, add_trace. simpl.
  rewrite !notified_app, notified_redis. simpl.
  by rewrite notified_forwarder_effects.
Qed.

Lemma annotations_committed cs h' ev w : annotations (committed cs h' ev w) = h'.
Proof. reflexivity. Qed.

(** The listing of a hash in which [id] has just been written: one record
    with that id, the one parsed from the payload written. *)
Lemma listing_after_write (h : gmap string string) id s obj :
  JSON_parse s = Some obj → own_prop "id" (spread obj) = None →
  payloads_carry_no_id (delete id h) →
  filter (λ v, has_id id v)
    (filter (λ v, truthy v)
       (listed (<[id := s]> h) <$> Object_keys (<[id := s]> h)))
  = [object_literal (("id", VStr id) :: spread obj)].
Proof.
  intros Hparse Hobj Hothers.
  apply Permutation_singleton_r.
  assert (Object_keys (<[id := s]> h) ≡ₚ id :: Object_keys (delete id h)) as ->.
  { unfold Object_keys. rewrite <- insert_delete_eq.
    rewrite map_to_list_insert by apply lookup_delete_eq. done. }
  rewrite fmap_cons. unfold listed at 1. rewrite lookup_insert_eq. simpl.
  rewrite Hparse. rewrite filter_cons_True by done.
  rewrite filter_cons_True
    by (unfold has_id; rewrite get_id_literal by done; by rewrite String.eqb_refl).
  apply Permutation_skip.
  match goal with |- ?l ≡ₚ [] => destruct l as [| x l'] eqn:Hl end; [done |].
  assert (x ∈ x :: l') as Hx by left. rewrite <- Hl in Hx.
  apply list_elem_of_filter in Hx as [Hid Hx].
  apply list_elem_of_filter in Hx as [_ Hx].
  apply list_elem_of_fmap in Hx as (k & -> & Hk).
  apply list_elem_of_fmap in Hk as ([k' s'] & -> & Hk). simpl in *.
  apply elem_of_map_to_list in Hk.
  pose proof Hk as Hk'. apply lookup_delete_Some in Hk' as [Hne Hk'].
  exfalso. unfold listed in Hid. rewrite lookup_insert_ne in Hid by done.
  rewrite Hk' in Hid. simpl in Hid.
  destruct (JSON_parse s') as [v |] eqn:Hv; [| done].
  unfold has_id in Hid. rewrite get_id_literal in Hid by eauto.
  destruct (String.eqb_spec k' id); [congruence | done].
Qed.

(** The listing, entry by entry. *)
Lemma listed_keys (h : gmap string string) :
  listed h <$> Object_keys h = listed_entry <$> map_to_list h.
Proof.
  unfold Object_keys. rewrite <- list_fmap_compose.
  apply list_fmap_ext. intros i [k s] Hi. simpl.
  apply list_elem_of_lookup_2, elem_of_map_to_list in Hi.
  unfold listed, listed_entry. by rewrite Hi.
Qed.

Lemma elem_of_listing (L : list (string * string)) r :
  r ∈ filter (λ v, truthy v) (listed_entry <$> L)
  ↔ ∃ k s v, (k, s) ∈ L ∧ JSON_parse s = Some v
             ∧ r = object_literal (("id", VStr k) :: spread v).
Proof.
  rewrite list_elem_of_filter, list_elem_of_fmap. split.
  - intros (Ht & [k s] & -> & Hin). unfold listed_entry in *. simpl in *.
    destruct (JSON_parse s) as [v |] eqn:Hv; [| done]. by exists k, s, v.
  - intros (k & s & v & Hin & Hv & ->). split; [done |].
    exists (k, s). unfold listed_entry. simpl. by rewrite Hv.
Qed.

Lemma length_listing (L : list (string * string)) :
  length (filter (λ v, truthy v) (listed_entry <$> L))
  = length (filter (λ kv, is_Some (JSON_parse kv.2)) L).
Proof.
  induction L as [| [k s] L IH]; [done |].
  rewrite fmap_cons. destruct (JSON_parse s) as [v |] eqn:Hv.
  - rewrite (filter_cons_True (λ v, Is_true (truthy v)))
      by (unfold listed_entry; simpl; by rewrite Hv).
    rewrite (filter_cons_True (λ kv, is_Some (JSON_parse kv.2)))
      by (simpl; rewrite Hv; by eexists).
    simpl. by rewrite IH.
  - rewrite (filter_cons_False (λ v, Is_true (truthy v)))
      by (unfold listed_entry; simpl; rewrite Hv; simpl; tauto).
    rewrite (filter_cons_False (λ kv, is_Some (JSON_parse kv.2)))
      by (simpl; rewrite Hv; by intros [? ?]).
    done.
Qed.

(** The condition on the hash holds of the empty hash, deleting keeps
    it, and so does writing a payload that reads back without an [id]:
    an update keeps it, and a create whose [id] is a string or a number.
    A create with another [id] writes what the id holds and may break
    it. *)
Lemma no_id_empty : payloads_carry_no_id ∅.
Proof. intros k s v Hk. by rewrite lookup_empty in Hk. Qed.

Lemma no_id_delete h k : payloads_carry_no_id h → payloads_carry_no_id (delete k h).
Proof.
  intros Hh k' s v Hk'. apply lookup_delete_Some in Hk' as [_ Hk']. eauto.
Qed.

Lemma no_id_insert h k s :
  (∀ v, JSON_parse s = Some v → own_prop "id" (spread v) = None) →
  payloads_carry_no_id (delete k h) → payloads_carry_no_id (<[k := s]> h).
Proof.
  intros Hs Hh k' s' v Hk'.
  apply lookup_insert_Some in Hk' as [[<- <-] | [Hne Hk']]; [by apply Hs |].
  apply (Hh k' s' v). by rewrite lookup_delete_ne.
Qed.

Lemma no_id_stored_record lngLat now clientId :
  own_prop "id" (spread (stored_record lngLat now clientId)) = None.
Proof. reflexivity. Qed.

Lemma POST_keeps_no_id req w r w' :
  is_Some (redis_field (get "id" (body req))) →
  reads_back req w → payloads_carry_no_id (annotations w) →
  POST_annotations req w = Returned r w' → payloads_carry_no_id (annotations w').
Proof.
  intros [key0 Hkey] Hrt Hh. unfold reads_back in Hrt.
  destruct (POST_runs req w)
    as [Hb | Hb Hbad | l Ht Hf Hm Hl Hlen | args l Ht Hf Hm Hl Hlen Hwhy
       | args pairs l Ht Hf Hm Hl Hlen Hp Hne Hup
       | key l Ht Hf Hl Hlen Hup | key l Ht Hf Hl Hlen Hup];
    intros [= <- <-]; try done; try congruence.
  rewrite annotations_committed. rewrite Hl in Hrt.
  apply no_id_insert; [| by apply no_id_delete].
  intros v Hv. subst obj clientId. rewrite Hrt in Hv. by injection Hv as <-.
Qed.

Lemma PUT_keeps_no_id req w r w' :
  reads_back req w → payloads_carry_no_id (annotations w) →
  PUT_annotations_id req w = Returned r w' → payloads_carry_no_id (annotations w').
Proof.
  intros Hrt Hh. unfold reads_back in Hrt.
  destruct (PUT_runs req w) as [Hb | Hb Hbad | l Hl Hlen Hup | l Hl Hlen Hup];
    intros [= <- <-]; try done.
  rewrite annotations_committed. rewrite Hl in Hrt.
  apply no_id_insert; [| by apply no_id_delete].
  intros v Hv. subst obj clientId. rewrite Hrt in Hv. by injection Hv as <-.
Qed.

Lemma DELETE_keeps_no_id req w r w' :
  payloads_carry_no_id (annotations w) →
  DELETE_annotations_id req w = Returned r w' → payloads_carry_no_id (annotations w').
Proof.
  intros Hh.
  destruct (DELETE_runs req w) as [Hup | Hup]; intros [= <- <-]; try done.
  rewrite annotations_committed. by apply no_id_delete.
Qed.

End Running.

(** * The properties *)

Section Properties.
Context `{Runtime}.

(** C6, amended: a create or update whose request carries a body and
    whose position is not an array, or has fewer than two elements,
    answers 400 (InvalidArgument) and returns the world it was given: no
    Redis command was issued, nothing was handed to the forwarder, the
    hash is the same. *)
Theorem C6_bad_position_rejected_first (req : Request) (w : World) :
  has_body req → bad_position (get "lngLat" (body req)) →
  (∃ r, POST_annotations req w = Returned r w ∧ status r = 400%nat) ∧
  (∃ r, PUT_annotations_id req w = Returned r w ∧ status r = 400%nat).
Proof.
  intros Hb Hbad. split.
  - rewrite run_POST_invalid by auto. eauto.
  - rewrite run_PUT_invalid by auto. eauto.
Qed.

(** C4: with Redis answering, delete answers 200 for every id; [removed]
    is true exactly when the hash held an entry for the id, the entry is
    gone afterwards, and one remove event is handed to the forwarder in
    both cases. *)
Theorem C4_delete_reports_and_notifies (req : Request) (w : World) :
  redis_up w = true →
  ∃ removed w',
    DELETE_annotations_id req w
    = Returned {| status := 200;
                  json := object_literal [("id", VStr (params_id req));
                                          ("removed", VBool removed)] |} w' ∧
    (removed = true ↔ is_Some (annotations w !! params_id req)) ∧
    annotations w' = delete (params_id req) (annotations w) ∧
    notified (trace w') = notified (trace w) ++ [remove_event (params_id req)].
Proof.
  intros Hup. rewrite run_DELETE_ok by done.
  eexists _, _. split; [reflexivity |].
  rewrite notified_committed, annotations_committed. split_and!; try done.
  destruct (annotations w !! params_id req); simpl.
  - split; eauto.
  - split; [done | by intros [? ?]].
Qed.

Lemma lcws_is_open_connected w :
  lcws_is_open (lcws w) = true ↔ forwarder_state w = Connected.
Proof.
  unfold lcws_is_open, forwarder_state.
  destruct (lcws w) as [[[]] |]; simpl; split; (done || discriminate).
Qed.

Lemma POST_unaffected : unaffected_by_forwarder POST_annotations.
Proof.
  intros req w s b.
  destruct (POST_runs req w)
    as [Hb | Hb Hbad | l Ht Hf Hm Hl Hlen | args l Ht Hf Hm Hl Hlen Hwhy
       | args pairs l Ht Hf Hm Hl Hlen Hp Hne Hup
       | key l Ht Hf Hl Hlen Hup | key l Ht Hf Hl Hlen Hup].
  - rewrite run_POST_no_body by done. by eexists _, _, _.
  - rewrite run_POST_invalid by done. by eexists _, _, _.
  - erewrite run_POST_refused by done. by eexists _, _, _.
  - rewrite (run_POST_map_rejected _ (with_forwarder s b w) args l) by done.
    by eexists _, _, _.
  - erewrite run_POST_map_ok by done. by eexists _, _, _.
  - erewrite run_POST_down by done. by eexists _, _, _.
  - erewrite run_POST_ok by done. by eexists _, _, _.
Qed.

Lemma PUT_unaffected : unaffected_by_forwarder PUT_annotations_id.
Proof.
  intros req w s b.
  destruct (PUT_runs req w) as [Hb | Hb Hbad | l Hl Hlen Hup | l Hl Hlen Hup].
  - rewrite run_PUT_no_body by done. by eexists _, _, _.
  - rewrite run_PUT_invalid by done. by eexists _, _, _.
  - erewrite run_PUT_down by done. by eexists _, _, _.
  - erewrite run_PUT_ok by done. by eexists _, _, _.
Qed.

Lemma DELETE_unaffected : unaffected_by_forwarder DELETE_annotations_id.
Proof.
  intros req w s b.
  destruct (DELETE_runs req w) as [Hup | Hup].
  - rewrite run_DELETE_down by done. by eexists _, _, _.
  - rewrite run_DELETE_ok by done. by eexists _, _, _.
Qed.

(** A request that passes the API key check reaches the handler; one
    that does not is answered 401 and the world is left as it was. *)
Lemma requireApiKey_open req (next : M Response) w :
  unset (API_KEY w) = true → requireApiKey req next w = next w.
Proof. intros Hk. unfold requireApiKey, mbind, M_bind, read. by rewrite Hk. Qed.

Lemma requireApiKey_match req (next : M Response) w k :
  API_KEY w = Some k → k ≠ "" →
  js_or (header_x_api_key req) (query_api_key req) = VStr k →
  requireApiKey req next w = next w.
Proof.
  intros Hk Hne Hkey. unfold requireApiKey, mbind, M_bind, read.
  rewrite Hk, Hkey. simpl. rewrite String.eqb_refl.
  by destruct (String.eqb_spec k "").
Qed.

Lemma requireApiKey_mismatch req (next : M Response) w k :
  API_KEY w = Some k → k ≠ "" →
  js_or (header_x_api_key req) (query_api_key req) ≠ VStr k →
  ∃ r, requireApiKey req next w = Returned r w ∧ status r = 401%nat.
Proof.
  intros Hk Hne Hkey. unfold requireApiKey, mbind, M_bind, read.
  rewrite Hk. simpl. destruct (String.eqb_spec k "") as [| _]; [done |].
  destruct (js_or (header_x_api_key req) (query_api_key req)) as [| | | | s' | |];
    simpl; rewrite ?orb_true_r; try by eexists.
  destruct (String.eqb_spec s' k) as [-> | _]; [done |].
  simpl. rewrite orb_true_r. by eexists.
Qed.

(** C8: [broadcastToLightcable] returns for every event and every world,
    and changes nothing but the trace: no event is kept for later, no
    timer is set. Connected, the event is serialized into one frame, or
    the failure of [send] is logged; not connected (also when no socket
    was ever created), it is dropped with one console line. Without an
    endpoint no socket is created, at start-up or later. The response of
    the store operations and their effect on the hash are the same
    whatever the forwarder does. *)
Theorem C8_notify_never_throws :
  (∀ ev w, ∃ fx,
     broadcastToLightcable ev w = Returned () (add_trace (Notify ev :: fx) w) ∧
     fx = match forwarder_state w with
          | Connected =>
              if send_throws w then [Console "LC send err"]
              else [Frame (JSON_stringify ev)]
          | Connecting | Disconnected =>
              [Console "Lightcable not connected; skip broadcast"]
          end) ∧
  (∀ w, unset (LIGHTCABLE_WS_URL w) = true →
     startup w = Returned () w ∧ connectLightcable w = Returned () w) ∧
  unaffected_by_forwarder POST_annotations ∧
  unaffected_by_forwarder PUT_annotations_id ∧
  unaffected_by_forwarder DELETE_annotations_id.
Proof.
  split_and!; auto using POST_unaffected, PUT_unaffected, DELETE_unaffected.
  - intros ev w. eexists. split; [apply run_broadcast |].
    unfold forwarder_effects.
    destruct (lcws_is_open (lcws w)) eqn:Ho.
    + apply lcws_is_open_connected in Ho. by rewrite Ho.
    + destruct (forwarder_state w) eqn:Hs; try done.
      apply lcws_is_open_connected in Hs. congruence.
  - intros w Hurl.
    unfold startup, connectLightcable, mbind, M_bind, read. by rewrite Hurl.
Qed.


(** C2, amended: after every successful update (200), and after every
    successful create (201) whose id the Redis client takes as the one
    field to write (a string or a number), the payload stored under the
    id is the serialization of a record whose [updatedAt] is the reading
    of the clock during that request, and the response carries the same
    reading; what the hash held before under the id plays no part. *)
Theorem C2_updatedAt_is_now (req : Request) (w : World) (r : Response) (w' : World) :
  (∀ key, redis_field (get "id" (body req)) = Some key →
     POST_annotations req w = Returned r w' → status r = 201%nat →
     ∃ lngLat,
       let stored := stored_record lngLat (clock w)
                       (js_or (get "clientId" (body req)) VNull) in
       annotations w' !! key = Some (JSON_stringify stored) ∧
       get "updatedAt" stored = VNum (Dec (clock w) 0) ∧
       get "updatedAt" (json r) = VNum (Dec (clock w) 0)) ∧
  (PUT_annotations_id req w = Returned r w' → status r = 200%nat →
   ∃ lngLat,
     let stored := stored_record lngLat (clock w)
                     (js_or (get "clientId" (body req)) VNull) in
     annotations w' !! params_id req = Some (JSON_stringify stored) ∧
     get "updatedAt" stored = VNum (Dec (clock w) 0) ∧
     get "updatedAt" (json r) = VNum (Dec (clock w) 0)).
Proof.
  split; [intros key Hkey Hrun Hst | intros Hrun Hst].
  - pose proof (POST_runs req w) as V. rewrite Hrun in V.
    inversion V; subst; simpl in Hst; try discriminate; try congruence.
    assert (key0 = key) as -> by congruence.
    eexists. simpl. rewrite lookup_insert_eq. by split_and!.
  - pose proof (PUT_runs req w) as V. rewrite Hrun in V.
    inversion V; subst; simpl in Hst; try discriminate.
    eexists. simpl. rewrite lookup_insert_eq. by split_and!.
Qed.

(** C1, amended: for a non-empty string [id] and a position of at least
    two elements, when Redis answers, [JSON.parse] reads back the record
    that [JSON.stringify] wrote, and no payload stored under another id
    carries an [id] property of its own, create answers 201 and the list
    that follows holds exactly one record with that id, whose position is
    the array given. *)
Theorem C1_create_then_list (req req' : Request) (w : World)
    (id : string) (lngLat : list value) :
  get "id" (body req) = VStr id → id ≠ "" →
  get "lngLat" (body req) = VArr lngLat → (2 ≤ length lngLat)%nat →
  redis_up w = true → reads_back req w →
  payloads_carry_no_id (delete id (annotations w)) →
  ∃ r1 w1 l w2,
    POST_annotations req w = Returned r1 w1 ∧ status r1 = 201%nat ∧
    GET_annotations req' w1 = Returned {| status := 200; json := VArr l |} w2 ∧
    ∃ record,
      filter (λ v, has_id id v) l = [record] ∧
      get "lngLat" record = VArr lngLat.
Proof.
  intros Hid Hne Hl Hlen Hup Hrt Hothers.
  unfold reads_back in Hrt. rewrite Hl in Hrt.
  assert (truthy (VStr id) = true) as Ht.
  { simpl. by destruct (String.eqb_spec id ""). }
  erewrite run_POST_ok by (try apply redis_field_string; done).
  eexists _, _, _, _. split; [reflexivity |]. split; [done |].
  rewrite run_GET_ok by done. split; [reflexivity |].
  rewrite annotations_committed.
  erewrite listing_after_write by done.
  eexists. split; [reflexivity | done].
Qed.

(** Update applies the position test of create (its id is the path
    parameter, which Express never hands over empty); with Redis
    answering it writes the new payload under the id whether or not an
    entry was there, and [existed] is [true] exactly when the hash held
    a non-empty payload under the id. *)
Lemma PUT_upserts (req : Request) (w : World) :
  has_body req →
  ((∃ r w', PUT_annotations_id req w = Returned r w' ∧ status r = 400%nat)
   ↔ bad_position (get "lngLat" (body req))) ∧
  ((∃ r w', POST_annotations req w = Returned r w' ∧ status r = 400%nat)
   ↔ truthy (get "id" (body req)) = false ∨ bad_position (get "lngLat" (body req))) ∧
  (bad_position (get "lngLat" (body req)) →
   ∃ r, PUT_annotations_id req w = Returned r w ∧ status r = 400%nat) ∧
  (∀ lngLat, get "lngLat" (body req) = VArr lngLat → (2 ≤ length lngLat)%nat →
     redis_up w = true →
     let stored := stored_record (VArr lngLat) (clock w)
                     (js_or (get "clientId" (body req)) VNull) in
     ∃ existed r w',
       PUT_annotations_id req w = Returned r w' ∧ status r = 200%nat ∧
       get "existed" (json r) = VBool existed ∧
       (existed = true ↔ ∃ s, annotations w !! params_id req = Some s ∧ s ≠ "") ∧
       annotations w' = <[params_id req := JSON_stringify stored]> (annotations w)).
Proof.
  intros Hb. split_and!.
  - split.
    + intros (r & w' & Hrun & Hst).
      pose proof (PUT_runs req w) as V. rewrite Hrun in V.
      inversion V; subst; simpl in Hst; by try discriminate.
    + intros Hbad. rewrite run_PUT_invalid by done. by eexists _, _.
  - split.
    + intros (r & w' & Hrun & Hst).
      pose proof (POST_runs req w) as V. rewrite Hrun in V.
      inversion V; subst; simpl in Hst; by try discriminate.
    + intros Hbad. rewrite run_POST_invalid by done. by eexists _, _.
  - intros Hbad. rewrite run_PUT_invalid by done. by eexists.
  - intros lngLat Hl Hlen Hup stored. erewrite run_PUT_ok by done.
    eexists _, _, _. split; [reflexivity |]. split_and!; try done.
    destruct (annotations w !! params_id req) as [s |]; simpl.
    + destruct (String.eqb_spec s "") as [-> | Hne]; simpl.
      * split; [done | by intros (? & [= <-] & ?)].
      * split; [eauto | done].
    + split; [done | by intros (? & ? & ?)].
Qed.

(** C5, amended: with Redis answering, the listing answers 200 whatever
    the payloads are. It holds one record [{ id, ...parsed }] for each
    entry whose payload [JSON.parse] accepts, of whatever shape the
    parsed value is, and nothing for the entries whose payload it
    rejects; the hash is left as it was. *)
Theorem C5_list_skips_unparsable (req : Request) (w : World) :
  redis_up w = true →
  ∃ l w',
    GET_annotations req w = Returned {| status := 200; json := VArr l |} w' ∧
    annotations w' = annotations w ∧
    (∀ r, r ∈ l ↔ ∃ k s v, annotations w !! k = Some s ∧ JSON_parse s = Some v
                           ∧ r = object_literal (("id", VStr k) :: spread v)) ∧
    length l
    = length (filter (λ kv, is_Some (JSON_parse kv.2)) (map_to_list (annotations w))).
Proof.
  intros Hup. rewrite run_GET_ok by done.
  eexists _, _. split; [reflexivity |]. split; [done |].
  rewrite listed_keys. split; [| apply length_listing].
  intros r. rewrite elem_of_listing.
  by setoid_rewrite elem_of_map_to_list.
Qed.

Lemma notified_add_trace_quiet es w :
  notified es = [] → notified (trace (add_trace es w)) = notified (trace w) ++ [].
Proof. intros Hes. unfold add_trace. simpl. by rewrite notified_app, Hes. Qed.

(** C7, amended: for a request typed as the interface has it, every
    event handed to the forwarder is [{ type: "add" | "update", id,
    lngLat, clientId }] with a string [id], an [lngLat] of two or more
    numbers and a [clientId] that is a string or null, or
    [{ type: "remove", id, clientId: null }] without [lngLat]; create
    hands over "add" events only, update "update" events only, delete
    "remove" events only and the listing none. *)
Theorem C7_wire_events (req : Request) (w : World) :
  typed_request req →
  hands_over POST_annotations (change_shape "add") req w ∧
  hands_over PUT_annotations_id (change_shape "update") req w ∧
  hands_over DELETE_annotations_id remove_shape req w ∧
  hands_over GET_annotations (λ _, False) req w.
Proof.
  intros (Hid & Hpos & Hcl).
  assert (js_or (get "clientId" (body req)) VNull = VNull
          ∨ is_string (js_or (get "clientId" (body req)) VNull) = true) as Hc.
  { unfold js_or. destruct Hcl as [-> | [-> | Hs]]; simpl; auto.
    destruct (truthy (get "clientId" (body req))); auto. }
  unfold hands_over. split_and!.
  - destruct (POST_runs req w)
      as [Hb | Hb Hbad | l Ht Hf Hm Hl Hlen | args l Ht Hf Hm Hl Hlen Hwhy
         | args pairs l Ht Hf Hm Hl Hlen Hp Hne Hup
         | key l Ht Hf Hl Hlen Hup | key l Ht Hf Hl Hlen Hup].
    + eexists _, _, []. by rewrite notified_add_trace_quiet.
    + eexists _, _, []. by rewrite app_nil_r.
    + eexists _, _, []. by rewrite notified_add_trace_quiet.
    + eexists _, _, []. by rewrite notified_add_trace_quiet.
    + destruct Hid as [Hu | Hs]; [by rewrite Hu in Ht |].
      destruct (get "id" (body req)) as [| | | | sid | |] eqn:Hi; try done.
      by rewrite redis_field_string in Hf.
    + eexists _, _, []. by rewrite notified_add_trace_quiet.
    + eexists _, _, [_]. split; [reflexivity |].
      rewrite notified_committed. split; [reflexivity |].
      apply Forall_singleton.
      destruct Hid as [Hu | Hs]; [by rewrite Hu in Ht |].
      destruct (get "id" (body req)) as [| | | | sid | |] eqn:Hi; try done.
      exists sid, l, (js_or (get "clientId" (body req)) VNull).
      split_and!; auto.
  - destruct (PUT_runs req w) as [Hb | Hb Hbad | l Hl Hlen Hup | l Hl Hlen Hup].
    + eexists _, _, []. by rewrite notified_add_trace_quiet.
    + eexists _, _, []. by rewrite app_nil_r.
    + eexists _, _, []. by rewrite notified_add_trace_quiet.
    + eexists _, _, [_]. split; [reflexivity |].
      rewrite notified_committed. split; [reflexivity |].
      apply Forall_singleton.
      exists (params_id req), l, (js_or (get "clientId" (body req)) VNull).
      split_and!; auto.
  - destruct (DELETE_runs req w) as [Hup | Hup].
    + eexists _, _, []. by rewrite notified_add_trace_quiet.
    + eexists _, _, [_]. split; [reflexivity |].
      rewrite notified_committed. split; [reflexivity |].
      apply Forall_singleton. by exists (params_id req).
  - destruct (redis_up w) eqn:Hup.
    + rewrite run_GET_ok by done. eexists _, _, [].
      by rewrite notified_add_trace_quiet.
    + rewrite run_GET_down by done. eexists _, _, [].
      by rewrite notified_add_trace_quiet.
Qed.

End Properties.

(** ** The forwarder's connection *)

Lemma run_close w :
  is_Some (lcws w) →
  socket_event ws_close w
  = Returned ()
      (set_timers (timers w ++ [(2000, cb_connectLightcable)])
         (set_lcws None
            (add_trace [Console "Lightcable WS closed, will attempt reconnect in 2s"] w))).
Proof. intros [s Hs]. unfold socket_event, mbind, M_bind, read. by rewrite Hs. Qed.

Lemma run_error w :
  is_Some (lcws w) →
  socket_event ws_error w
  = Returned ()
      (add_trace [Console "Lightcable WS error"]
         (set_lcws (Some {| readyState := CLOSING |}) w)).
Proof. intros [s Hs]. unfold socket_event, mbind, M_bind, read. by rewrite Hs. Qed.

Lemma run_timer w d ts :
  endpoint_configured w → timers w = (d, cb_connectLightcable) :: ts →
  timer_fires w
  = Returned () (set_lcws (Some {| readyState := CONNECTING |}) (set_timers ts w)).
Proof.
  unfold endpoint_configured. intros Hurl Hts.
  unfold timer_fires, mbind, M_bind, read. rewrite Hts. simpl.
  unfold connectLightcable, mbind, M_bind, read. simpl. by rewrite Hurl.
Qed.

(** However the connection ends, the listener of 'close' runs last: the
    socket is dropped and one reconnect is scheduled. *)
Lemma run_connection_ends e w :
  is_Some (lcws w) →
  ∃ w', connection_ends e w = Returned () w' ∧
        LIGHTCABLE_WS_URL w' = LIGHTCABLE_WS_URL w ∧ lcws w' = None ∧
        timers w' = timers w ++ [(2000, cb_connectLightcable)].
Proof.
  intros Hs. destruct e; simpl.
  - rewrite run_close by done. by eexists.
  - unfold mbind, M_bind. rewrite run_error by done.
    rewrite run_close by (by eexists). by eexists.
Qed.

(** A round takes a world with a socket and no pending timer to another
    such world, the new socket waiting to connect. *)
Lemma run_round r w :
  endpoint_configured w → is_Some (lcws w) → timers w = [] →
  ∃ w', reconnect_round r w = Returned () w' ∧
        endpoint_configured w' ∧ forwarder_state w' = Connecting ∧
        lcws w' = Some {| readyState := CONNECTING |} ∧ timers w' = [].
Proof.
  intros Hurl Hs Hts. unfold reconnect_round, mbind, M_bind.
  assert (∃ w0, (if r.1 then socket_event ws_open else mret ()) w = Returned () w0 ∧
                endpoint_configured w0 ∧ is_Some (lcws w0) ∧ timers w0 = [])
    as (w0 & -> & Hurl0 & Hs0 & Hts0).
  { destruct r.1; [| by exists w]. destruct Hs as [s Hs].
    unfold socket_event, mbind, M_bind, read. rewrite Hs.
    eexists. split; [reflexivity |]. split_and!; [done | by eexists | done]. }
  destruct (run_connection_ends r.2 w0 Hs0) as (w1 & -> & Hurl1 & Hs1 & Hts1).
  rewrite Hts0 in Hts1. simpl in Hts1.
  assert (endpoint_configured w1) as Hcfg
    by (unfold endpoint_configured in *; by rewrite Hurl1).
  erewrite run_timer; [| done | exact Hts1].
  eexists. by split_and!.
Qed.

Lemma run_rounds rs w :
  endpoint_configured w → is_Some (lcws w) → timers w = [] →
  ∃ w', rounds rs w = Returned () w' ∧
        endpoint_configured w' ∧ is_Some (lcws w') ∧ timers w' = [].
Proof.
  revert w. induction rs as [| r rs IH]; intros w Hurl Hs Hts; simpl.
  - by exists w.
  - destruct (run_round r w) as (w1 & Hrun & Hurl1 & _ & Hs1 & Hts1); try done.
    unfold mbind, M_bind. rewrite Hrun.
    apply IH; [done | by rewrite Hs1 | done].
Qed.

(** C9: with an endpoint configured, whenever the transport reports the
    connection closed or errored (the error followed by the close that
    the socket emits after it), the forwarder is disconnected ([lcws] is
    null) and one reconnect is scheduled 2000 ms later, and that timer
    puts the forwarder back to connecting. This holds after any number
    of earlier rounds, however each of them ended and whether or not its
    socket had opened, with the same delay each time: nothing counts the
    attempts. *)
Theorem C9_reconnects_after_close_or_error (rs : list (bool * ConnectionEnd))
    (e : ConnectionEnd) (w : World) :
  endpoint_configured w → is_Some (lcws w) → timers w = [] →
  ∃ wn w' w'',
    rounds rs w = Returned () wn ∧
    connection_ends e wn = Returned () w' ∧
    forwarder_state w' = Disconnected ∧ lcws w' = None ∧
    timers w' = [(2000, cb_connectLightcable)] ∧
    timer_fires w' = Returned () w'' ∧
    forwarder_state w'' = Connecting ∧ timers w'' = [].
Proof.
  intros Hurl Hs Hts.
  destruct (run_rounds rs w) as (wn & Hrun & Hurln & Hsn & Htsn); try done.
  destruct (run_connection_ends e wn Hsn) as (w' & Hend & Hurl' & Hs' & Hts').
  rewrite Htsn in Hts'. simpl in Hts'.
  assert (endpoint_configured w') as Hcfg
    by (unfold endpoint_configured in *; by rewrite Hurl').
  eexists wn, w', _. split; [done |]. split; [done |].
  split; [unfold forwarder_state; by rewrite Hs' |]. split; [done |].
  split; [done |].
  erewrite run_timer; [| done | exact Hts'].
  by split_and!.
Qed.

(** C6 as stated fails: a request without a body has no array under
    [lngLat], and is answered 500 with a console line, not 400. *)
Lemma C6_counterexample : ¬ bad_position_always_rejected reference_runtime.
Proof.
  intros Hclaim.
  destruct (Hclaim (request "a1" VUndefined) quiet_world) as [(r & Hrun & Hst) _].
  - by left.
  - rewrite (run_POST_no_body (H := reference_runtime)) in Hrun
      by (intros [Hu _]; by apply Hu).
    injection Hrun as <- _. discriminate Hst.
Qed.

Lemma C6_witness :
  (∃ r, POST_annotations (H := reference_runtime) (request "" body_short) quiet_world
        = Returned r quiet_world ∧ status r = 400%nat) ∧
  (∃ r, PUT_annotations_id (H := reference_runtime) (request "a1" body_short) quiet_world
        = Returned r quiet_world ∧ status r = 400%nat).
Proof.
  split.
  - apply (C6_bad_position_rejected_first (H := reference_runtime)
             (request "" body_short) quiet_world).
    + split; discriminate.
    + right. simpl. lia.
  - apply (C6_bad_position_rejected_first (H := reference_runtime)
             (request "a1" body_short) quiet_world).
    + split; discriminate.
    + right. simpl. lia.
Defined.

Lemma C4_witness :
  ∃ removed w',
    DELETE_annotations_id (H := reference_runtime) (request "a1" VUndefined) quiet_world
    = Returned {| status := 200;
                  json := object_literal [("id", VStr "a1");
                                          ("removed", VBool removed)] |} w' ∧
    (removed = true ↔ is_Some (annotations quiet_world !! "a1")) ∧
    annotations w' = delete "a1" (annotations quiet_world) ∧
    notified (trace w') = notified (trace quiet_world) ++ [remove_event "a1"].
Proof.
  apply (C4_delete_reports_and_notifies (H := reference_runtime)
           (request "a1" VUndefined) quiet_world).
  reflexivity.
Defined.

(** C3: [existed] is [!!existingRaw], and the empty string is falsy. A
    create whose id is [{ a1: <the empty string> }] is answered 201 and
    leaves the empty string under [a1]. The update of [a1] that follows
    overwrites that entry and reports [existed: false], where a delete
    of [a1] reports [removed: true]. *)
Theorem C3_existed_false_for_an_entry :
  ∃ r1 w1 r2 w2 r3 w3,
    POST_annotations (H := reference_runtime) (request "" body_blanking) quiet_world
    = Returned r1 w1 ∧ status r1 = 201%nat ∧
    annotations w1 = annotations blank_world ∧
    annotations w1 !! "a1" = Some "" ∧
    PUT_annotations_id (H := reference_runtime) (request "a1" body_a1) w1
    = Returned r2 w2 ∧ status r2 = 200%nat ∧
    get "existed" (json r2) = VBool false ∧
    DELETE_annotations_id (H := reference_runtime) (request "a1" VUndefined) w1
    = Returned r3 w3 ∧
    get "removed" (json r3) = VBool true.
Proof.
  erewrite (run_POST_map_ok (H := reference_runtime));
    [| reflexivity | reflexivity | reflexivity | reflexivity | reflexivity
     | simpl; lia | reflexivity | discriminate | reflexivity].
  eexists _, _. eexists. eexists. eexists. eexists.
  split; [reflexivity |]. split; [reflexivity |].
  rewrite annotations_committed. split; [reflexivity |].
  split; [reflexivity |].
  erewrite (run_PUT_ok (H := reference_runtime));
    [| reflexivity | simpl; lia | reflexivity].
  split; [reflexivity |]. split; [reflexivity |]. split; [reflexivity |].
  rewrite (run_DELETE_ok (H := reference_runtime)) by reflexivity.
  split; reflexivity.
Qed.

(** The create of [body_planting] is answered 201 and leaves the hash of
    [planted_world]; the create of [body_backdated] is answered 201 and
    leaves its own record under [a1]. *)
Lemma planted_world_reached :
  ∃ r w',
    POST_annotations (H := reference_runtime) (request "" body_planting) quiet_world
    = Returned r w' ∧ status r = 201%nat ∧
    annotations w' = annotations planted_world.
Proof.
  erewrite (run_POST_map_ok (H := reference_runtime));
    [| reflexivity | reflexivity | reflexivity | reflexivity | reflexivity
     | simpl; lia | reflexivity | discriminate | reflexivity].
  eexists _, _. split; [reflexivity |]. split; reflexivity.
Qed.

(** C1 as stated fails: with a payload under [zz] that names [a1] as its
    id, the listing that follows the create of [a1] holds two records
    with the id [a1]. *)
Lemma C1_counterexample : ¬ create_then_list_unique reference_runtime.
Proof.
  intros Hclaim.
  destruct (Hclaim (request "" body_a1) (request "" VUndefined) planted_world "a1"
              [VNum (Dec 11639 (-2)); VNum (Dec 399 (-1))])
    as (r1 & w1 & l & w2 & Hpost & _ & Hget & record & Hone & _);
    [reflexivity | discriminate | reflexivity | simpl; lia | reflexivity
     | vm_compute; reflexivity |].
  erewrite (run_POST_ok (H := reference_runtime)) in Hpost;
    [| reflexivity | reflexivity | reflexivity | reflexivity | simpl; lia
     | reflexivity].
  injection Hpost as _ <-.
  rewrite (run_GET_ok (H := reference_runtime)) in Hget by reflexivity.
  injection Hget as <-.
  apply (f_equal length) in Hone. vm_compute in Hone. discriminate Hone.
Qed.

(** C2 as stated fails: the create of [body_backdated] is answered 201
    and what it stores under [a1] is the record the id brought, stamped
    [5], not the time of the request. *)
Lemma C2_counterexample : ¬ every_write_is_stamped reference_runtime.
Proof.
  intros Hclaim.
  specialize (Hclaim (request "" body_backdated) quiet_world).
  erewrite (run_POST_map_ok (H := reference_runtime)) in Hclaim;
    [| reflexivity | reflexivity | reflexivity | reflexivity | reflexivity
     | simpl; lia | reflexivity | discriminate | reflexivity].
  destruct (Hclaim _ _ eq_refl eq_refl "a1" backdated_payload)
    as (v & Hv & Hstamp); [reflexivity | discriminate |].
  vm_compute in Hv. injection Hv as <-. discriminate Hstamp.
Qed.

(** C5 as stated fails: the payload [null] is JSON but no record, and the
    listing still holds an entry for its key, [{ id: "c" }]. *)
Lemma C5_counterexample : ¬ list_drops_invalid_records reference_runtime.
Proof.
  intros Hclaim.
  destruct (Hclaim (request "" VUndefined) mixed_world eq_refl)
    as (l & w' & Hrun & Hdrop).
  rewrite (run_GET_ok (H := reference_runtime)) in Hrun by reflexivity.
  injection Hrun as <- _.
  specialize (Hdrop "c" "null" eq_refl eq_refl (VObj [("id", VStr "c")])).
  enough (has_id "c" (VObj [("id", VStr "c")]) = false) by done.
  apply Hdrop. vm_compute. set_solver.
Qed.

(** C7 as stated fails twice. The event a create hands to the forwarder
    has no [kind] property: its type is under [type] and its coordinates
    under [lngLat]. And with those names, the event of the create
    [{ id: 5, lngLat: ["x", true], clientId: 7 }] carries the number [5]
    as its id, the coordinates and the [clientId] as they came. *)
Lemma C7_counterexample :
  ¬ events_have_claimed_shape reference_runtime ∧
  ¬ events_are_typed reference_runtime.
Proof.
  split; intros Hclaim.
  - destruct (Hclaim (request "" body_a1) quiet_world)
      as (r & w' & evs & Hrun & Hev & Hall).
    + split_and!; [by right | | by left].
      intros l [= <-]. reflexivity.
    + erewrite (run_POST_ok (H := reference_runtime)) in Hrun;
        [| reflexivity | reflexivity | reflexivity | reflexivity | simpl; lia
         | reflexivity].
      injection Hrun as _ <-. rewrite notified_committed in Hev.
      simpl in Hev. subst evs.
      apply Forall_singleton in Hall as (kind & Hkind & _).
      discriminate Hkind.
  - destruct (Hclaim (request "" body_untyped) quiet_world)
      as (r & w' & evs & Hrun & Hev & Hall).
    erewrite (run_POST_ok (H := reference_runtime)) in Hrun;
      [| reflexivity | reflexivity | reflexivity | reflexivity | simpl; lia
       | reflexivity].
    injection Hrun as _ <-. rewrite notified_committed in Hev.
    simpl in Hev. subst evs.
    apply Forall_singleton in Hall as (id & l & c & Hev & _).
    discriminate Hev.
Qed.

(** ** The theorems at work on the reference runtime *)

Lemma C1_witness :
  ∃ r1 w1 l w2,
    POST_annotations (H := reference_runtime) (request "" body_a1) mixed_world
    = Returned r1 w1 ∧ status r1 = 201%nat ∧
    GET_annotations (H := reference_runtime) (request "" VUndefined) w1
    = Returned {| status := 200; json := VArr l |} w2 ∧
    ∃ record,
      filter (λ v, has_id "a1" v) l = [record] ∧
      get "lngLat" record = VArr [VNum (Dec 11639 (-2)); VNum (Dec 399 (-1))].
Proof.
  apply (C1_create_then_list (H := reference_runtime)
           (request "" body_a1) (request "" VUndefined) mixed_world "a1"
           [VNum (Dec 11639 (-2)); VNum (Dec 399 (-1))]).
  - reflexivity.
  - discriminate.
  - reflexivity.
  - simpl. lia.
  - reflexivity.
  - vm_compute. reflexivity.
  - intros k s v Hk Hv.
    apply lookup_delete_Some in Hk as [Hne Hk].
    unfold mixed_world, mixed_hash in Hk. simpl in Hk.
    rewrite lookup_insert_ne in Hk by done.
    apply lookup_insert_Some in Hk as [[<- <-] | [_ Hk]]; [discriminate Hv |].
    apply lookup_insert_Some in Hk as [[<- <-] | [_ Hk]].
    + injection Hv as <-. reflexivity.
    + by rewrite lookup_empty in Hk.
Defined.

Lemma C2_witness :
  (∃ r w',
     POST_annotations (H := reference_runtime) (request "" body_a1) mixed_world
     = Returned r w' ∧ status r = 201%nat ∧
     get "updatedAt" (json r) = VNum (Dec (clock mixed_world) 0)) ∧
  (∃ r w',
     PUT_annotations_id (H := reference_runtime) (request "a1" body_a1) mixed_world
     = Returned r w' ∧ status r = 200%nat ∧
     get "updatedAt" (json r) = VNum (Dec (clock mixed_world) 0)).
Proof.
  split.
  - eexists _, _. split; [reflexivity |]. split; [reflexivity |].
    destruct (proj1 (C2_updatedAt_is_now (H := reference_runtime)
                       (request "" body_a1) mixed_world _ _) "a1"
                eq_refl eq_refl eq_refl)
      as (lngLat & _ & _ & Hr).
    exact Hr.
  - eexists _, _. split; [reflexivity |]. split; [reflexivity |].
    destruct (proj2 (C2_updatedAt_is_now (H := reference_runtime)
                       (request "a1" body_a1) mixed_world _ _) eq_refl eq_refl)
      as (lngLat & _ & _ & Hr).
    exact Hr.
Defined.

Lemma C5_witness :
  ∃ l w',
    GET_annotations (H := reference_runtime) (request "" VUndefined) mixed_world
    = Returned {| status := 200; json := VArr l |} w' ∧
    annotations w' = annotations mixed_world ∧
    (∀ r, r ∈ l ↔ ∃ k s v, annotations mixed_world !! k = Some s
                           ∧ JSON_parse (Runtime := reference_runtime) s = Some v
                           ∧ r = object_literal (("id", VStr k) :: spread v)) ∧
    length l
    = length (filter (λ kv, is_Some (JSON_parse (Runtime := reference_runtime) kv.2))
                (map_to_list (annotations mixed_world))).
Proof.
  apply (C5_list_skips_unparsable (H := reference_runtime)
           (request "" VUndefined) mixed_world).
  reflexivity.
Defined.

Lemma C7_witness :
  hands_over (POST_annotations (H := reference_runtime)) (change_shape "add")
    (request "a1" body_a1) live_world ∧
  hands_over (PUT_annotations_id (H := reference_runtime)) (change_shape "update")
    (request "a1" body_a1) live_world ∧
  hands_over (DELETE_annotations_id (H := reference_runtime)) remove_shape
    (request "a1" body_a1) live_world ∧
  hands_over (GET_annotations (H := reference_runtime)) (λ _, False)
    (request "a1" body_a1) live_world.
Proof.
  apply (C7_wire_events (H := reference_runtime) (request "a1" body_a1) live_world).
  split_and!.
  - by right.
  - intros l [= <-]. reflexivity.
  - by left.
Defined.

Lemma C9_witness :
  ∃ wn w' w'',
    rounds [(true, reports_closed); (false, reports_errored); (true, reports_errored)]
      live_world = Returned () wn ∧
    connection_ends reports_errored wn = Returned () w' ∧
    forwarder_state w' = Disconnected ∧ lcws w' = None ∧
    timers w' = [(2000, cb_connectLightcable)] ∧
    timer_fires w' = Returned () w'' ∧
    forwarder_state w'' = Connecting ∧ timers w'' = [].
Proof.
  apply (C9_reconnects_after_close_or_error
           [(true, reports_closed); (false, reports_errored); (true, reports_errored)]
           reports_errored live_world).
  - reflexivity.
  - by eexists.
  - reflexivity.
Defined.


(** * Further properties of the server *)

Section Gateway.
Context `{Runtime}.

Lemma requireApiKey_authorized req (next : M Response) w :
  authorized req w → requireApiKey req next w = next w.
Proof.
  intros [Hu | (k & Hk & Hkey)]; [by apply requireApiKey_open |].
  destruct (String.eqb_spec k "") as [-> | Hne].
  - apply requireApiKey_open. by rewrite Hk.
  - by apply (requireApiKey_match req next w k).
Qed.

Lemma requireApiKey_unauthorized req (next : M Response) w :
  ¬ authorized req w → requireApiKey req next w = Returned unauthorized_response w.
Proof.
  unfold authorized, presented_key. intros Hno.
  unfold requireApiKey, mbind, M_bind, read.
  destruct (unset (API_KEY w)) eqn:Hu; [by destruct Hno; left |].
  destruct (API_KEY w) as [k |] eqn:Hk; [| done]. simpl.
  destruct (js_or (header_x_api_key req) (query_api_key req))
    as [| | | | s' | |] eqn:Hkey; simpl; rewrite ?orb_true_r; try done.
  destruct (String.eqb_spec s' k) as [-> | _].
  - destruct Hno. right. by exists k.
  - by rewrite orb_true_r.
Qed.

(** X1: when an API key is required and the key presented (the header,
    or else the query parameter) is missing or different, each of the
    four annotation routes answers 401 and leaves the world as it was: no
    Redis command, no event, no console line. [/health] is not behind
    the check and answers 200. *)
Theorem X1_unauthorized_request_changes_nothing (e : Endpoint) (req : Request)
    (w : World) :
  ¬ authorized req w →
  (e ≠ ep_health → app e req w = Returned unauthorized_response w) ∧
  app ep_health req w
  = Returned {| status := 200; json := VObj [("ok", VBool true)] |} w.
Proof.
  intros Hno. split; [| reflexivity].
  intros He. destruct e; try done; by apply requireApiKey_unauthorized.
Qed.

(** X2: when no API key is configured (unset or empty), or the key
    presented is the configured one, every route runs exactly its
    handler. *)
Theorem X2_authorized_request_reaches_handler (e : Endpoint) (req : Request)
    (w : World) :
  authorized req w → app e req w = handler e req w.
Proof.
  intros Hok. destruct e; try reflexivity; by apply requireApiKey_authorized.
Qed.

(** X3: the header wins over the query parameter. A non-empty
    [x-api-key] header that differs from the key is rejected even when
    [api_key] in the query is right; an absent or empty header falls
    back to the query parameter. *)
Theorem X3_header_takes_precedence (e : Endpoint) (req : Request) (w : World)
    (k : string) :
  API_KEY w = Some k → k ≠ "" → e ≠ ep_health →
  (∀ h, header_x_api_key req = VStr h → h ≠ "" → h ≠ k →
        app e req w = Returned unauthorized_response w) ∧
  (header_x_api_key req = VUndefined ∨ header_x_api_key req = VStr "" →
   query_api_key req = VStr k → app e req w = handler e req w).
Proof.
  intros Hk Hne He. split.
  - intros h Hh Hhne Hhk.
    assert (¬ authorized req w) as Hno.
    { unfold authorized, presented_key, js_or. rewrite Hh, Hk. simpl.
      destruct (String.eqb_spec h "") as [| _]; [done |]. simpl.
      intros [Hu | (k' & [= <-] & [= ->])]; [| done].
      by destruct (String.eqb_spec k ""). }
    destruct e; try done; by apply requireApiKey_unauthorized.
  - intros Hh Hq.
    assert (authorized req w) as Hok.
    { right. exists k. split; [done |]. unfold presented_key, js_or.
      by destruct Hh as [-> | ->]. }
    destruct e; try done; by apply requireApiKey_authorized.
Qed.

End Gateway.

Section Handlers.
Context `{Runtime}.

Lemma authorized_dec req w : authorized req w ∨ ¬ authorized req w.
Proof.
  unfold authorized. destruct (unset (API_KEY w)) eqn:Hu; [by left; left |].
  destruct (API_KEY w) as [k |] eqn:Hk; [| done].
  destruct (presented_key req) as [| | | | s' | |] eqn:Hp;
    try (right; intros [? | (k' & _ & ?)]; done).
  destruct (String.eqb_spec s' k) as [-> | Hne].
  - left. right. by exists k.
  - right. intros [? | (k' & [= <-] & [= ?])]; done.
Qed.

(** A request is turned away at the key check, or runs its handler. *)
Lemma app_runs e req w :
  app e req w = Returned unauthorized_response w ∨ app e req w = handler e req w.
Proof.
  destruct e; try (by right);
    destruct (authorized_dec req w) as [Hok | Hno];
    solve [ right; by apply requireApiKey_authorized
          | left; by apply requireApiKey_unauthorized ].
Qed.

Lemma hsets_app t t' : hsets (t ++ t') = hsets t ++ hsets t'.
Proof. apply omap_app. Qed.

Lemma hsets_forwarder_effects ev w : hsets (forwarder_effects ev w) = [].
Proof.
  unfold forwarder_effects.
  by destruct (lcws_is_open (lcws w)), (send_throws w).
Qed.

Lemma js_or_null c : js_or c VNull = VNull ∨ truthy (js_or c VNull) = true.
Proof. unfold js_or. destruct (truthy c) eqn:Hc; auto. Qed.

(** A request leaves the surroundings alone. *)
Lemma app_keeps_surroundings e req w :
  ∃ r w', app e req w = Returned r w' ∧ keeps_surroundings w w'.
Proof.
  destruct (app_runs e req w) as [-> | ->]; [by eexists _, _ |].
  unfold keeps_surroundings. destruct e; simpl.
  - destruct (redis_up w) eqn:Hup;
      [rewrite run_GET_ok by done | rewrite run_GET_down by done];
      by eexists _, _.
  - destruct (POST_runs req w); by eexists _, _.
  - destruct (PUT_runs req w); by eexists _, _.
  - destruct (DELETE_runs req w); by eexists _, _.
  - by eexists _, _.
Qed.

(** X4: a handler always answers, and what it changes is the hash and
    the trace only: the socket in [lcws], the pending timers and the
    configuration are the same after every request, whatever its path
    through the handler, also a request turned away at the key check. *)
Theorem X4_requests_leave_the_forwarder_alone (e : Endpoint) (req : Request)
    (w : World) :
  ∃ r w', app e req w = Returned r w' ∧
          lcws w' = lcws w ∧ timers w' = timers w ∧
          LIGHTCABLE_WS_URL w' = LIGHTCABLE_WS_URL w ∧ API_KEY w' = API_KEY w ∧
          clock w' = clock w.
Proof.
  destruct (app_keeps_surroundings e req w) as (r & w' & Hrun & Hk).
  destruct Hk as (Hurl & Hkey & _ & Hs & _ & Hts & Hclock).
  by exists r, w'.
Qed.

(** X5: while Redis does not answer, no handler reports success and none
    hands anything to the forwarder: the listing and delete answer 500,
    create and update answer 500 (or 400 for a payload they reject before
    calling Redis), the hash is as it was, and [/health] still answers
    200. *)
Theorem X5_redis_down_no_success_no_event (e : Endpoint) (req : Request)
    (w : World) :
  redis_up w = false →
  ∃ r w',
    handler e req w = Returned r w' ∧
    annotations w' = annotations w ∧
    notified (trace w') = notified (trace w) ∧
    match e with
    | ep_list | ep_delete => r = internal_error
    | ep_create | ep_update => status r = 500%nat ∨ (status r = 400%nat ∧ w' = w)
    | ep_health => status r = 200%nat
    end.
Proof.
  intros Hup. destruct e; simpl.
  - rewrite run_GET_down by done. eexists _, _. split; [reflexivity |].
    rewrite notified_add_trace_quiet, app_nil_r by done. done.
  - destruct (POST_runs req w); try congruence; eexists _, _;
      (split; [reflexivity |]);
      rewrite ?notified_add_trace_quiet, ?app_nil_r by done; auto.
  - destruct (PUT_runs req w); try congruence; eexists _, _;
      (split; [reflexivity |]);
      rewrite ?notified_add_trace_quiet, ?app_nil_r by done; auto.
  - rewrite run_DELETE_down by done. eexists _, _. split; [reflexivity |].
    rewrite notified_add_trace_quiet, app_nil_r by done. done.
  - by eexists _, _.
Qed.

(** X6: a create or update whose request has no body ([req.body]
    undefined or null) is answered 500 "internal", not 400: the
    destructuring throws and the [catch] answers. No Redis command is
    sent; the trace gains the one console line. *)
Theorem X6_missing_body_is_an_internal_error (req : Request) (w : World) :
  ¬ has_body req →
  POST_annotations req w
  = Returned internal_error (add_trace [Console "POST /annotations err"] w) ∧
  PUT_annotations_id req w
  = Returned internal_error (add_trace [Console "PUT /annotations/:id err"] w) ∧
  status internal_error = 500%nat ∧
  get "error" (json internal_error) = VStr "internal".
Proof.
  intros Hb. split_and!; [by apply run_POST_no_body | by apply run_PUT_no_body | done ..].
Qed.

(** X7: a request changes at most the fields of the hash it is about:
    the path parameter for update and delete; for create, the id of the
    body when it is a string or a number, and otherwise the fields that
    the Redis client draws from the id itself. Every other field reads
    the same afterwards, and the listing and [/health] change none. *)
Theorem X7_other_fields_untouched (e : Endpoint) (req : Request) (w : World)
    (k : string) :
  k ∉ written_fields e req →
  ∃ r w', handler e req w = Returned r w' ∧ annotations w' !! k = annotations w !! k.
Proof.
  unfold written_fields. intros Hk. destruct e; simpl in *.
  - destruct (redis_up w) eqn:Hup;
      [rewrite run_GET_ok by done | rewrite run_GET_down by done];
      by eexists _, _.
  - destruct (POST_runs req w)
      as [Hb | Hb Hbad | l Ht Hf Hm Hl Hlen | args l Ht Hf Hm Hl Hlen Hwhy
         | args pairs l Ht Hf Hm Hl Hlen Hp Hne Hup
         | key l Ht Hf Hl Hlen Hup | key l Ht Hf Hl Hlen Hup];
      try by eexists _, _.
    + eexists _, _. split; [reflexivity |].
      rewrite annotations_committed. apply lookup_write_pairs.
      rewrite Hf, Hm in Hk. simpl in Hk. by rewrite Hp in Hk.
    + eexists _, _. split; [reflexivity |].
      rewrite annotations_committed. apply lookup_insert_ne.
      rewrite Hf in Hk. by apply not_elem_of_cons in Hk as [Hne _].
  - destruct (PUT_runs req w); try by eexists _, _.
    eexists _, _. split; [reflexivity |].
    rewrite annotations_committed. apply lookup_insert_ne.
    by apply not_elem_of_cons in Hk as [Hne _].
  - destruct (DELETE_runs req w); try by eexists _, _.
    eexists _, _. split; [reflexivity |].
    rewrite annotations_committed. apply lookup_delete_ne.
    by apply not_elem_of_cons in Hk as [Hne _].
  - by eexists _, _.
Qed.

Lemma hsets_add_trace es w :
  hsets (trace (add_trace es w)) = hsets (trace w) ++ hsets es.
Proof. unfold add_trace. simpl. apply hsets_app. Qed.

Lemma hsets_committed cs h' ev w :
  hsets (trace (committed cs h' ev w)) = hsets (trace w) ++ hsets (map Redis cs).
Proof.
  unfold committed. rewrite hsets_add_trace, hsets_app. simpl.
  by rewrite hsets_forwarder_effects, app_nil_r.
Qed.

(** X8: whatever the request, a handler sends at most one [HSET], and
    only for a position that passed the check, an array of two or more
    elements. The [HSET] of an update, and of a create whose id is a
    string or a number, is for the field the request is about and for
    one payload, the serialization of a record stamped with the clock of
    the request, whose [clientId] is null or truthy. The [HSET] of a
    create with any other id carries what the Redis client draws from
    the id, and not the record. *)
Theorem X8_only_checked_records_are_written (e : Endpoint) (req : Request)
    (w : World) :
  ∃ r w' sent,
    handler e req w = Returned r w' ∧
    hsets (trace w') = hsets (trace w) ++ sent ∧
    (length sent ≤ 1)%nat ∧
    ∀ args, args ∈ sent →
      good_position (get "lngLat" (body req)) ∧
      ((∃ f p, args = [f; p] ∧ written_field e req = Some f
               ∧ record_payload (clock w) p)
       ∨ (e = ep_create ∧ redis_field (get "id" (body req)) = None
          ∧ redis_map (get "id" (body req)) = Some args)).
Proof.
  set (ok := λ args : list string,
         good_position (get "lngLat" (body req)) ∧
         ((∃ f p, args = [f; p] ∧ written_field e req = Some f
                  ∧ record_payload (clock w) p)
          ∨ (e = ep_create ∧ redis_field (get "id" (body req)) = None
             ∧ redis_map (get "id" (body req)) = Some args))).
  assert (∀ r w', hsets (trace w') = hsets (trace w) ++ [] →
            ∃ (r0 : Response) w0 sent,
              Returned r w' = Returned r0 w0 ∧
              hsets (trace w0) = hsets (trace w) ++ sent ∧
              (length sent ≤ 1)%nat ∧ ∀ args, args ∈ sent → ok args)
    as Hnone.
  { intros r w' Hw'. exists r, w', []. split_and!; [done | done | simpl; lia |].
    by intros ? ?%elem_of_nil. }
  assert (∀ r w' args,
            hsets (trace w') = hsets (trace w) ++ [args] → ok args →
            ∃ (r0 : Response) w0 sent,
              Returned r w' = Returned r0 w0 ∧
              hsets (trace w0) = hsets (trace w) ++ sent ∧
              (length sent ≤ 1)%nat ∧ ∀ args, args ∈ sent → ok args)
    as Hone.
  { intros r w' args Hw' Hok. exists r, w', [args].
    split_and!; [done | exact Hw' | simpl; lia |].
    by intros ? ->%list_elem_of_singleton. }
  assert (∀ f l, written_field e req = Some f →
            get "lngLat" (body req) = VArr l → (2 ≤ length l)%nat →
            ok [f; JSON_stringify
                     (stored_record (VArr l) (clock w)
                        (js_or (get "clientId" (body req)) VNull))])
    as Hrecord.
  { intros f l Hf Hl Hlen. split; [by exists l |]. left.
    eexists f, _. split_and!; [done | done |].
    exists l, (js_or (get "clientId" (body req)) VNull).
    split_and!; [done | done | apply js_or_null]. }
  destruct e; simpl in *.
  - destruct (redis_up w) eqn:Hup;
      [rewrite run_GET_ok by done | rewrite run_GET_down by done];
      apply Hnone; by rewrite hsets_add_trace.
  - destruct (POST_runs req w)
      as [Hb | Hb Hbad | l Ht Hf Hm Hl Hlen | args l Ht Hf Hm Hl Hlen Hwhy
         | args pairs l Ht Hf Hm Hl Hlen Hp Hne Hup
         | key l Ht Hf Hl Hlen Hup | key l Ht Hf Hl Hlen Hup].
    + apply Hnone. by rewrite hsets_add_trace.
    + apply Hnone. by rewrite app_nil_r.
    + apply Hnone. by rewrite hsets_add_trace.
    + eapply Hone; [by rewrite hsets_add_trace |].
      split; [by exists l | by right].
    + eapply Hone; [by rewrite hsets_committed |].
      split; [by exists l | by right].
    + eapply Hone; [by rewrite hsets_add_trace | by apply Hrecord].
    + eapply Hone; [by rewrite hsets_committed | by apply Hrecord].
  - destruct (PUT_runs req w) as [Hb | Hb Hbad | l Hl Hlen Hup | l Hl Hlen Hup].
    + apply Hnone. by rewrite hsets_add_trace.
    + apply Hnone. by rewrite app_nil_r.
    + apply Hnone. by rewrite hsets_add_trace.
    + eapply Hone; [by rewrite hsets_committed | by apply Hrecord].
  - destruct (DELETE_runs req w) as [Hup | Hup].
    + apply Hnone. by rewrite hsets_add_trace.
    + apply Hnone. by rewrite hsets_committed.
  - apply Hnone. by rewrite app_nil_r.
Qed.

End Handlers.

Section Sequences.
Context `{Runtime}.

(** X9: after a delete that Redis answered, a listing of the same hash
    holds no record with the deleted id (no other stored payload
    carrying an [id] property of its own). *)
Theorem X9_deleted_id_is_not_listed (req req' : Request) (w : World) :
  redis_up w = true →
  payloads_carry_no_id (delete (params_id req) (annotations w)) →
  ∃ r1 w1,
    DELETE_annotations_id req w = Returned r1 w1 ∧
    ∀ w1', annotations w1' = annotations w1 → redis_up w1' = true →
      ∃ l w2,
        GET_annotations req' w1' = Returned {| status := 200; json := VArr l |} w2 ∧
        ∀ r, r ∈ l → has_id (params_id req) r = false.
Proof.
  intros Hup Hothers. rewrite run_DELETE_ok by done.
  eexists _, _. split; [reflexivity |].
  intros w1' Hsame Hup'. rewrite run_GET_ok by done.
  eexists _, _. split; [reflexivity |].
  rewrite Hsame, annotations_committed, listed_keys.
  intros r (k & s & v & Hin & Hv & ->)%elem_of_listing.
  apply elem_of_map_to_list in Hin.
  pose proof Hin as [Hne _]%lookup_delete_Some.
  unfold has_id. rewrite get_id_literal by eauto.
  by destruct (String.eqb_spec k (params_id req)).
Qed.

(** X10: deleting again is harmless: a second delete of the same id
    answers 200 with [removed: false], leaves the hash as the first one
    left it, and still hands a remove event to the forwarder. *)
Theorem X10_second_delete_removes_nothing (req : Request) (w : World) :
  redis_up w = true →
  ∃ r1 w1,
    DELETE_annotations_id req w = Returned r1 w1 ∧
    ∀ w1', annotations w1' = annotations w1 → redis_up w1' = true →
      ∃ w2,
        DELETE_annotations_id req w1'
        = Returned {| status := 200;
                      json := VObj [("id", VStr (params_id req));
                                    ("removed", VBool false)] |} w2 ∧
        annotations w2 = annotations w1 ∧
        notified (trace w2) = notified (trace w1') ++ [remove_event (params_id req)].
Proof.
  intros Hup. rewrite run_DELETE_ok by done.
  eexists _, _. split; [reflexivity |].
  intros w1' Hsame Hup'. rewrite run_DELETE_ok by done.
  rewrite Hsame, annotations_committed, lookup_delete_eq.
  eexists. split; [reflexivity |].
  rewrite notified_committed, !annotations_committed.
  by rewrite delete_delete_eq.
Qed.

(** X11: a create followed by a delete of the same id answers
    [removed: true] and leaves the hash without that id and otherwise as
    it was before the create; when the id was new, the hash is back to
    what it was. *)
Theorem X11_create_then_delete (req req' : Request) (w : World)
    (id : string) (lngLat : list value) :
  get "id" (body req) = VStr id → id ≠ "" →
  get "lngLat" (body req) = VArr lngLat → (2 ≤ length lngLat)%nat →
  redis_up w = true → params_id req' = id →
  ∃ r1 w1,
    POST_annotations req w = Returned r1 w1 ∧ status r1 = 201%nat ∧
    ∀ w1', annotations w1' = annotations w1 → redis_up w1' = true →
      ∃ w2,
        DELETE_annotations_id req' w1'
        = Returned {| status := 200;
                      json := VObj [("id", VStr id); ("removed", VBool true)] |} w2 ∧
        annotations w2 = delete id (annotations w) ∧
        (annotations w !! id = None → annotations w2 = annotations w).
Proof.
  intros Hid Hne Hl Hlen Hup <-.
  assert (truthy (VStr (params_id req')) = true) as Ht.
  { simpl. by destruct (String.eqb_spec (params_id req') ""). }
  erewrite run_POST_ok by (try apply redis_field_string; done).
  eexists _, _. split; [reflexivity |]. split; [done |].
  intros w1' Hsame Hup'. rewrite run_DELETE_ok by done.
  rewrite Hsame, annotations_committed.
  rewrite lookup_insert_eq.
  eexists. split; [reflexivity |].
  rewrite annotations_committed, delete_insert_eq.
  split; [done |]. intros Hnone. by apply delete_id.
Qed.

(** X12: the last write wins. After a create and then an update of the
    same id the hash holds the update's payload under the id and is
    otherwise as before the create, as if only the update had happened;
    the update reports [existed: true] as long as the payload of the
    create is not the empty string. *)
Theorem X12_update_after_create (req req' : Request) (w : World)
    (id : string) (lngLat lngLat' : list value) :
  get "id" (body req) = VStr id → id ≠ "" →
  get "lngLat" (body req) = VArr lngLat → (2 ≤ length lngLat)%nat →
  redis_up w = true →
  params_id req' = id →
  get "lngLat" (body req') = VArr lngLat' → (2 ≤ length lngLat')%nat →
  JSON_stringify (stored_record (VArr lngLat) (clock w)
                    (js_or (get "clientId" (body req)) VNull)) ≠ "" →
  ∃ r1 w1,
    POST_annotations req w = Returned r1 w1 ∧ status r1 = 201%nat ∧
    ∀ w1', annotations w1' = annotations w1 → redis_up w1' = true →
      ∃ r2 w2,
        PUT_annotations_id req' w1' = Returned r2 w2 ∧ status r2 = 200%nat ∧
        get "existed" (json r2) = VBool true ∧
        get "lngLat" (json r2) = VArr lngLat' ∧
        annotations w2
        = <[id := JSON_stringify
                    (stored_record (VArr lngLat') (clock w1')
                       (js_or (get "clientId" (body req')) VNull))]>
            (annotations w).
Proof.
  intros Hid Hne Hl Hlen Hup <- Hl' Hlen' Hpayload.
  assert (truthy (VStr (params_id req')) = true) as Ht.
  { simpl. by destruct (String.eqb_spec (params_id req') ""). }
  erewrite run_POST_ok by (try apply redis_field_string; done).
  eexists _, _. split; [reflexivity |]. split; [done |].
  intros w1' Hsame Hup'. erewrite run_PUT_ok by done.
  rewrite Hsame, annotations_committed, lookup_insert_eq.
  eexists _, _. split; [reflexivity |]. split; [done |].
  rewrite annotations_committed, insert_insert_eq. simpl.
  split_and!; try done.
  destruct (String.eqb_spec
              (JSON_stringify (stored_record (VArr lngLat) (clock w)
                                 (js_or (get "clientId" (body req)) VNull))) "");
    done.
Qed.

(** X13: the body of a create's 201 response is the very record the
    listing returns for that id afterwards (the JSON codec reading back
    what was written, no other payload carrying an [id] of its own). *)
Theorem X13_create_response_is_the_listed_record (req req' : Request)
    (w : World) (id : string) (lngLat : list value) :
  get "id" (body req) = VStr id → id ≠ "" →
  get "lngLat" (body req) = VArr lngLat → (2 ≤ length lngLat)%nat →
  redis_up w = true → reads_back req w →
  payloads_carry_no_id (delete id (annotations w)) →
  ∃ r1 w1,
    POST_annotations req w = Returned r1 w1 ∧
    ∀ w1', annotations w1' = annotations w1 → redis_up w1' = true →
      ∃ l w2,
        GET_annotations req' w1' = Returned {| status := 200; json := VArr l |} w2 ∧
        filter (λ v, has_id id v) l = [json r1].
Proof.
  intros Hid Hne Hl Hlen Hup Hrt Hothers.
  unfold reads_back in Hrt. rewrite Hl in Hrt.
  assert (truthy (VStr id) = true) as Ht.
  { simpl. by destruct (String.eqb_spec id ""). }
  erewrite run_POST_ok by (try apply redis_field_string; done).
  eexists _, _. split; [reflexivity |].
  intros w1' Hsame Hup'. rewrite run_GET_ok by done.
  eexists _, _. split; [reflexivity |].
  rewrite Hsame, annotations_committed.
  by erewrite listing_after_write.
Qed.


(** X19: an update creates what is not there. After an update that
    Redis answered, whether or not the id existed, the listing holds
    exactly one record with that id: the path parameter as [id], the
    position, time stamp and [clientId] of the update, and no [existed]
    property (the JSON codec reading back what was written, no other
    payload carrying an [id] of its own). *)
Theorem X19_update_then_list (req req' : Request) (w : World)
    (lngLat : list value) :
  get "lngLat" (body req) = VArr lngLat → (2 ≤ length lngLat)%nat →
  redis_up w = true → reads_back req w →
  payloads_carry_no_id (delete (params_id req) (annotations w)) →
  ∃ r1 w1,
    PUT_annotations_id req w = Returned r1 w1 ∧ status r1 = 200%nat ∧
    ∀ w1', annotations w1' = annotations w1 → redis_up w1' = true →
      ∃ l w2 record,
        GET_annotations req' w1' = Returned {| status := 200; json := VArr l |} w2 ∧
        filter (λ v, has_id (params_id req) v) l = [record] ∧
        record = VObj [("id", VStr (params_id req)); ("lngLat", VArr lngLat);
                       ("updatedAt", VNum (Dec (clock w) 0));
                       ("clientId", js_or (get "clientId" (body req)) VNull)] ∧
        get "existed" record = VUndefined.
Proof.
  intros Hl Hlen Hup Hrt Hothers.
  unfold reads_back in Hrt. rewrite Hl in Hrt.
  erewrite run_PUT_ok by done.
  eexists _, _. split; [reflexivity |]. split; [done |].
  intros w1' Hsame Hup'. rewrite run_GET_ok by done.
  eexists _, _, _. split; [reflexivity |].
  rewrite Hsame, annotations_committed.
  erewrite listing_after_write by done.
  by split_and!.
Qed.

End Sequences.

Section EventLoop.
Context `{Runtime}.

Lemma frames_app t t' : frames (t ++ t') = frames t ++ frames t'.
Proof. apply omap_app. Qed.

Lemma frames_add_trace es w :
  frames (trace (add_trace es w)) = frames (trace w) ++ frames es.
Proof. unfold add_trace. simpl. apply frames_app. Qed.

Lemma frames_redis cs : frames (map Redis cs) = [].
Proof. by induction cs. Qed.

Lemma frames_committed cs h' ev w :
  frames (trace (committed cs h' ev w))
  = frames (trace w) ++ frames (forwarder_effects ev w).
Proof.
  unfold committed. rewrite frames_add_trace, frames_app, frames_redis. done.
Qed.

Lemma forwarder_effects_closed ev w :
  lcws w = None → forwarder_effects ev w = [Console "Lightcable not connected; skip broadcast"].
Proof. unfold forwarder_effects. by intros ->. Qed.

(** With no socket in [lcws] a request puts no frame on the wire. *)
Lemma app_frames_closed e req w :
  lcws w = None →
  ∃ r w', app e req w = Returned r w' ∧ frames (trace w') = frames (trace w).
Proof.
  intros Hs. destruct (app_runs e req w) as [-> | ->]; [by eexists _, _ |].
  destruct e; simpl.
  - destruct (redis_up w) eqn:Hup;
      [rewrite run_GET_ok by done | rewrite run_GET_down by done];
      eexists _, _; (split; [reflexivity |]);
      by rewrite frames_add_trace, app_nil_r.
  - destruct (POST_runs req w); eexists _, _; (split; [reflexivity |]);
      rewrite ?frames_add_trace, ?frames_committed, ?forwarder_effects_closed by done;
      by rewrite ?app_nil_r.
  - destruct (PUT_runs req w); eexists _, _; (split; [reflexivity |]);
      rewrite ?frames_add_trace, ?frames_committed, ?forwarder_effects_closed by done;
      by rewrite ?app_nil_r.
  - destruct (DELETE_runs req w); eexists _, _; (split; [reflexivity |]);
      rewrite ?frames_add_trace, ?frames_committed, ?forwarder_effects_closed by done;
      by rewrite ?app_nil_r.
  - by eexists _, _.
Qed.

(** X15: what the transport and the timers trigger never touches the
    store: a socket event, an expiring timer and the start-up connect
    all return, leave the hash and the configuration as they were, send
    no Redis command and no frame, hand nothing to the forwarder, and
    write console lines at most. *)
Theorem X15_forwarder_callbacks_leave_the_store_alone (w : World) :
  ∀ step, step ∈ [socket_event ws_open; socket_event ws_close;
                  socket_event ws_error; timer_fires; startup; connectLightcable] →
    ∃ w' es,
      step w = Returned () w' ∧
      annotations w' = annotations w ∧ redis_up w' = redis_up w ∧
      LIGHTCABLE_WS_URL w' = LIGHTCABLE_WS_URL w ∧ API_KEY w' = API_KEY w ∧
      trace w' = trace w ++ es ∧ forallb is_console es = true.
Proof.
  assert (∃ w' es,
            connectLightcable w = Returned () w' ∧
            annotations w' = annotations w ∧ redis_up w' = redis_up w ∧
            LIGHTCABLE_WS_URL w' = LIGHTCABLE_WS_URL w ∧ API_KEY w' = API_KEY w ∧
            trace w' = trace w ++ es ∧ forallb is_console es = true) as Hconnect.
  { unfold connectLightcable, mbind, M_bind, read.
    destruct (unset (LIGHTCABLE_WS_URL w)); eexists _, [];
      by rewrite app_nil_r. }
  intros step Hstep. repeat apply elem_of_cons in Hstep as [-> | Hstep].
  - unfold socket_event, mbind, M_bind, read.
    destruct (lcws w); [eexists _, [_] | eexists _, []; rewrite app_nil_r]; done.
  - unfold socket_event, mbind, M_bind, read.
    destruct (lcws w); [eexists _, [_] | eexists _, []; rewrite app_nil_r]; done.
  - unfold socket_event, mbind, M_bind, read.
    destruct (lcws w); [eexists _, [_] | eexists _, []; rewrite app_nil_r]; done.
  - unfold timer_fires, mbind, M_bind, read.
    destruct (timers w) as [| [d []] ts]; [eexists _, []; by rewrite app_nil_r |].
    simpl. unfold connectLightcable, mbind, M_bind, read. simpl.
    destruct (unset (LIGHTCABLE_WS_URL w)); eexists _, [];
      by rewrite app_nil_r.
  - unfold startup, mbind, M_bind, read.
    destruct (unset (LIGHTCABLE_WS_URL w)) eqn:Hu; [| exact Hconnect].
    eexists _, []. by rewrite app_nil_r.
  - exact Hconnect.
  - by apply elem_of_nil in Hstep.
Qed.

(** X16: events are neither queued nor replayed. An event notified
    while the socket is closed is dropped; once the reconnect timer has
    expired and the new socket has opened, the forwarder is connected,
    no frame has been sent for the dropped event, and the next event
    goes out as one frame carrying its serialization. *)
Theorem X16_reconnect_delivers_later_events_only (ev1 ev2 : value) (w : World) :
  endpoint_configured w → is_Some (lcws w) → timers w = [] →
  send_throws w = false →
  ∃ w4 w5,
    (socket_event ws_close;; broadcastToLightcable ev1;; timer_fires;;
     socket_event ws_open) w = Returned () w4 ∧
    forwarder_state w4 = Connected ∧
    frames (trace w4) = frames (trace w) ∧
    broadcastToLightcable ev2 w4 = Returned () w5 ∧
    frames (trace w5) = frames (trace w) ++ [JSON_stringify ev2] ∧
    notified (trace w5) = notified (trace w) ++ [ev1; ev2].
Proof.
  intros Hurl Hs Hts Hsend. unfold endpoint_configured in Hurl.
  unfold mbind, M_bind. rewrite run_close by done. rewrite run_broadcast.
  rewrite Hts. simpl.
  erewrite run_timer; [| done | reflexivity].
  unfold socket_event, mbind, M_bind, read. simpl.
  eexists _, _. split; [reflexivity |]. split; [reflexivity |].
  rewrite run_broadcast. unfold forwarder_effects. simpl. rewrite Hsend.
  split_and!; try reflexivity.
  - unfold add_trace. simpl. rewrite !frames_app. simpl. by rewrite !app_nil_r.
  - unfold add_trace. simpl. rewrite !frames_app. simpl.
    by rewrite !app_nil_r.
  - unfold add_trace. simpl. rewrite !notified_app. simpl.
    by rewrite !app_nil_r, <- app_assoc.
Qed.

Lemma perform_keeps_discipline a w :
  reconnect_discipline w →
  ∃ w', perform a w = Returned () w' ∧ reconnect_discipline w'.
Proof.
  unfold reconnect_discipline. intros Hd. destruct a as [e req | ev | | now up throws].
  - destruct (app_keeps_surroundings e req w) as (r & w' & Hrun & Hk).
    destruct Hk as (_ & _ & _ & Hs & _ & Hts & _).
    exists w'. simpl. unfold mbind, M_bind. rewrite Hrun.
    split; [reflexivity |]. by rewrite Hs, Hts.
  - simpl. unfold socket_event, mbind, M_bind, read.
    destruct (lcws w) as [s |] eqn:Hs; [| exists w; by rewrite Hs].
    destruct ev; eexists; (split; [reflexivity |]); simpl; rewrite ?Hd; auto.
  - simpl. unfold timer_fires, mbind, M_bind, read.
    destruct (lcws w) as [s |] eqn:Hs.
    + rewrite Hd. exists w. by rewrite Hs.
    + destruct Hd as [Ht | Ht]; rewrite Ht; [exists w; rewrite Hs; auto |].
      simpl. unfold connectLightcable, mbind, M_bind, read. simpl.
      destruct (unset (LIGHTCABLE_WS_URL w)); eexists;
        (split; [reflexivity |]); simpl; rewrite ?Hs; auto.
  - eexists. split; [reflexivity |]. done.
Qed.

(** X17: whatever requests arrive, whatever the transport reports and
    whenever timers expire, in any order and with the world changing in
    between, the event loop never throws, and the forwarder never holds
    a socket while a reconnect is pending nor has more than one
    reconnect pending, always due 2000 ms after the close. *)
Theorem X17_reconnect_discipline_is_invariant (acts : list Action) (w : World) :
  reconnect_discipline w →
  ∃ w', perform_all acts w = Returned () w' ∧ reconnect_discipline w'.
Proof.
  revert w. induction acts as [| a acts IH]; intros w Hd; simpl.
  - by exists w.
  - destruct (perform_keeps_discipline a w Hd) as (w1 & Hrun & Hd1).
    unfold mbind, M_bind. rewrite Hrun. by apply IH.
Qed.

Lemma perform_stays_inert a w :
  unset (LIGHTCABLE_WS_URL w) = true → lcws w = None → timers w = [] →
  ∃ w', perform a w = Returned () w' ∧
        unset (LIGHTCABLE_WS_URL w') = true ∧ lcws w' = None ∧ timers w' = [] ∧
        frames (trace w') = frames (trace w).
Proof.
  intros Hurl Hs Hts. destruct a as [e req | ev | | now up throws].
  - destruct (app_keeps_surroundings e req w) as (r & w' & Hrun & Hk).
    destruct (app_frames_closed e req w Hs) as (r' & w'' & Hrun' & Hfr).
    rewrite Hrun in Hrun'. injection Hrun' as <- <-.
    destruct Hk as (Hu & _ & _ & Hs' & _ & Hts' & _).
    exists w'. simpl. unfold mbind, M_bind. rewrite Hrun.
    split; [reflexivity |]. by rewrite Hu, Hs', Hts'.
  - simpl. unfold socket_event, mbind, M_bind, read. rewrite Hs. by exists w.
  - simpl. unfold timer_fires, mbind, M_bind, read. rewrite Hts. by exists w.
  - eexists. split; [reflexivity |]. done.
Qed.

(** X18: without a Lightcable endpoint the forwarder is inert for good.
    Starting with no socket and no timer, after any sequence of
    requests, transport reports, timer expiries and changes of the
    world there is still no socket and no timer, and not one frame has
    been sent. *)
Theorem X18_no_endpoint_no_frames (acts : list Action) (w : World) :
  unset (LIGHTCABLE_WS_URL w) = true → lcws w = None → timers w = [] →
  ∃ w', perform_all acts w = Returned () w' ∧
        lcws w' = None ∧ timers w' = [] ∧
        frames (trace w') = frames (trace w).
Proof.
  revert w. induction acts as [| a acts IH]; intros w Hurl Hs Hts; simpl.
  - by exists w.
  - destruct (perform_stays_inert a w Hurl Hs Hts)
      as (w1 & Hrun & Hurl1 & Hs1 & Hts1 & Hfr1).
    unfold mbind, M_bind. rewrite Hrun.
    destruct (IH w1 Hurl1 Hs1 Hts1) as (w' & Hrun' & Hs' & Hts' & Hfr').
    exists w'. split_and!; try done. by rewrite Hfr'.
Qed.

End EventLoop.

(** ** The further properties at work on the reference runtime *)

Lemma mixed_hash_others_carry_no_id :
  payloads_carry_no_id (H := reference_runtime) (delete "a1" (annotations mixed_world)).
Proof.
  intros k s v Hk Hv.
  apply lookup_delete_Some in Hk as [Hne Hk].
  unfold mixed_world, mixed_hash in Hk. simpl in Hk.
  rewrite lookup_insert_ne in Hk by done.
  apply lookup_insert_Some in Hk as [[<- <-] | [_ Hk]]; [discriminate Hv |].
  apply lookup_insert_Some in Hk as [[<- <-] | [_ Hk]].
  - injection Hv as <-. reflexivity.
  - by rewrite lookup_empty in Hk.
Defined.

Lemma X1_witness :
  let req := request_with_key VUndefined (VStr "wrong") "a1" body_a1 in
  (ep_create ≠ ep_health →
   app (H := reference_runtime) ep_create req guarded_world
   = Returned unauthorized_response guarded_world) ∧
  app (H := reference_runtime) ep_health req guarded_world
  = Returned {| status := 200; json := VObj [("ok", VBool true)] |} guarded_world.
Proof.
  intros req.
  apply (X1_unauthorized_request_changes_nothing (H := reference_runtime)
           ep_create req guarded_world).
  intros [Hu | (k & Hk & Hp)]; [discriminate Hu |].
  injection Hk as <-. discriminate Hp.
Defined.

Lemma X2_witness :
  let req := request_with_key (VStr "s3cret") VUndefined "a1" body_a1 in
  app (H := reference_runtime) ep_update req guarded_world
  = PUT_annotations_id (H := reference_runtime) req guarded_world.
Proof.
  intros req.
  apply (X2_authorized_request_reaches_handler (H := reference_runtime)
           ep_update req guarded_world).
  right. by exists "s3cret".
Defined.

Lemma X3_witness :
  app (H := reference_runtime) ep_delete
    (request_with_key (VStr "wrong") (VStr "s3cret") "a1" VUndefined) guarded_world
  = Returned unauthorized_response guarded_world ∧
  app (H := reference_runtime) ep_delete
    (request_with_key (VStr "") (VStr "s3cret") "a1" VUndefined) guarded_world
  = DELETE_annotations_id (H := reference_runtime)
      (request_with_key (VStr "") (VStr "s3cret") "a1" VUndefined) guarded_world.
Proof.
  split.
  - apply (proj1 (X3_header_takes_precedence (H := reference_runtime) ep_delete
                    (request_with_key (VStr "wrong") (VStr "s3cret") "a1" VUndefined)
                    guarded_world "s3cret" eq_refl ltac:(discriminate)
                    ltac:(discriminate)) "wrong");
      [reflexivity | discriminate | discriminate].
  - apply (proj2 (X3_header_takes_precedence (H := reference_runtime) ep_delete
                    (request_with_key (VStr "") (VStr "s3cret") "a1" VUndefined)
                    guarded_world "s3cret" eq_refl ltac:(discriminate)
                    ltac:(discriminate)));
      [by right | reflexivity].
Defined.

Lemma X5_witness :
  let w := set_environment 1700000000001 false false mixed_world in
  ∃ r w',
    handler (H := reference_runtime) ep_create (request "" body_a1) w = Returned r w' ∧
    annotations w' = annotations w ∧
    notified (trace w') = notified (trace w) ∧
    (status r = 500%nat ∨ (status r = 400%nat ∧ w' = w)).
Proof.
  intros w.
  apply (X5_redis_down_no_success_no_event (H := reference_runtime)
           ep_create (request "" body_a1) w).
  reflexivity.
Defined.

Lemma X6_witness :
  POST_annotations (H := reference_runtime) (request "" VUndefined) mixed_world
  = Returned internal_error (add_trace [Console "POST /annotations err"] mixed_world) ∧
  PUT_annotations_id (H := reference_runtime) (request "" VUndefined) mixed_world
  = Returned internal_error (add_trace [Console "PUT /annotations/:id err"] mixed_world) ∧
  status internal_error = 500%nat ∧
  get "error" (json internal_error) = VStr "internal".
Proof.
  apply (X6_missing_body_is_an_internal_error (H := reference_runtime)
           (request "" VUndefined) mixed_world).
  intros [Hu _]. by apply Hu.
Defined.

Lemma X7_witness :
  ∃ r w',
    handler (H := reference_runtime) ep_create (request "" body_planting) mixed_world
    = Returned r w' ∧
    annotations w' !! "b" = annotations mixed_world !! "b".
Proof.
  apply (X7_other_fields_untouched (H := reference_runtime)
           ep_create (request "" body_planting) mixed_world "b").
  assert (written_fields (H := reference_runtime) ep_create (request "" body_planting)
          = ["zz"]) as -> by reflexivity.
  by intros [= ]%list_elem_of_singleton.
Defined.

Lemma X9_witness :
  ∃ r1 w1,
    DELETE_annotations_id (H := reference_runtime) (request "a1" VUndefined) mixed_world
    = Returned r1 w1 ∧
    ∀ w1', annotations w1' = annotations w1 → redis_up w1' = true →
      ∃ l w2,
        GET_annotations (H := reference_runtime) (request "" VUndefined) w1'
        = Returned {| status := 200; json := VArr l |} w2 ∧
        ∀ r, r ∈ l → has_id "a1" r = false.
Proof.
  apply (X9_deleted_id_is_not_listed (H := reference_runtime)
           (request "a1" VUndefined) (request "" VUndefined) mixed_world).
  - reflexivity.
  - exact mixed_hash_others_carry_no_id.
Defined.

Lemma X10_witness :
  ∃ r1 w1,
    DELETE_annotations_id (H := reference_runtime) (request "a1" VUndefined) mixed_world
    = Returned r1 w1 ∧
    ∀ w1', annotations w1' = annotations w1 → redis_up w1' = true →
      ∃ w2,
        DELETE_annotations_id (H := reference_runtime) (request "a1" VUndefined) w1'
        = Returned {| status := 200;
                      json := VObj [("id", VStr "a1"); ("removed", VBool false)] |} w2 ∧
        annotations w2 = annotations w1 ∧
        notified (trace w2) = notified (trace w1') ++ [remove_event "a1"].
Proof.
  apply (X10_second_delete_removes_nothing (H := reference_runtime)
           (request "a1" VUndefined) mixed_world).
  reflexivity.
Defined.

Lemma X11_witness :
  ∃ r1 w1,
    POST_annotations (H := reference_runtime) (request "" body_a1) quiet_world
    = Returned r1 w1 ∧ status r1 = 201%nat ∧
    ∀ w1', annotations w1' = annotations w1 → redis_up w1' = true →
      ∃ w2,
        DELETE_annotations_id (H := reference_runtime) (request "a1" VUndefined) w1'
        = Returned {| status := 200;
                      json := VObj [("id", VStr "a1"); ("removed", VBool true)] |} w2 ∧
        annotations w2 = delete "a1" (annotations quiet_world) ∧
        (annotations quiet_world !! "a1" = None → annotations w2 = annotations quiet_world).
Proof.
  apply (X11_create_then_delete (H := reference_runtime)
           (request "" body_a1) (request "a1" VUndefined) quiet_world "a1"
           [VNum (Dec 11639 (-2)); VNum (Dec 399 (-1))]).
  - reflexivity.
  - discriminate.
  - reflexivity.
  - simpl. lia.
  - reflexivity.
  - reflexivity.
Defined.

Lemma X12_witness :
  let body' := VObj [("lngLat", VArr [VNum (Dec 11 0); VNum (Dec 21 0)])] in
  ∃ r1 w1,
    POST_annotations (H := reference_runtime) (request "" body_a1) quiet_world
    = Returned r1 w1 ∧ status r1 = 201%nat ∧
    ∀ w1', annotations w1' = annotations w1 → redis_up w1' = true →
      ∃ r2 w2,
        PUT_annotations_id (H := reference_runtime) (request "a1" body') w1'
        = Returned r2 w2 ∧ status r2 = 200%nat ∧
        get "existed" (json r2) = VBool true ∧
        get "lngLat" (json r2) = VArr [VNum (Dec 11 0); VNum (Dec 21 0)] ∧
        annotations w2
        = <["a1" := JSON_stringify (Runtime := reference_runtime)
                      (stored_record (VArr [VNum (Dec 11 0); VNum (Dec 21 0)])
                         (clock w1') VNull)]>
            (annotations quiet_world).
Proof.
  intros body'.
  apply (X12_update_after_create (H := reference_runtime)
           (request "" body_a1) (request "a1" body') quiet_world "a1"
           [VNum (Dec 11639 (-2)); VNum (Dec 399 (-1))]
           [VNum (Dec 11 0); VNum (Dec 21 0)]).
  - reflexivity.
  - discriminate.
  - reflexivity.
  - simpl. lia.
  - reflexivity.
  - reflexivity.
  - reflexivity.
  - simpl. lia.
  - vm_compute. discriminate.
Defined.

Lemma X13_witness :
  ∃ r1 w1,
    POST_annotations (H := reference_runtime) (request "" body_a1) mixed_world
    = Returned r1 w1 ∧
    ∀ w1', annotations w1' = annotations w1 → redis_up w1' = true →
      ∃ l w2,
        GET_annotations (H := reference_runtime) (request "" VUndefined) w1'
        = Returned {| status := 200; json := VArr l |} w2 ∧
        filter (λ v, has_id "a1" v) l = [json r1].
Proof.
  apply (X13_create_response_is_the_listed_record (H := reference_runtime)
           (request "" body_a1) (request "" VUndefined) mixed_world "a1"
           [VNum (Dec 11639 (-2)); VNum (Dec 399 (-1))]).
  - reflexivity.
  - discriminate.
  - reflexivity.
  - simpl. lia.
  - reflexivity.
  - vm_compute. reflexivity.
  - exact mixed_hash_others_carry_no_id.
Defined.


Lemma X15_witness :
  ∃ w' es,
    socket_event ws_close live_world = Returned () w' ∧
    annotations w' = annotations live_world ∧ redis_up w' = redis_up live_world ∧
    LIGHTCABLE_WS_URL w' = LIGHTCABLE_WS_URL live_world ∧
    API_KEY w' = API_KEY live_world ∧
    trace w' = trace live_world ++ es ∧ forallb is_console es = true.
Proof.
  apply (X15_forwarder_callbacks_leave_the_store_alone live_world
           (socket_event ws_close)).
  apply list_elem_of_further, list_elem_of_here.
Defined.

Lemma X16_witness :
  ∃ w4 w5,
    (socket_event ws_close;;
     broadcastToLightcable (H := reference_runtime) (remove_event "a1");;
     timer_fires;; socket_event ws_open) live_world = Returned () w4 ∧
    forwarder_state w4 = Connected ∧
    frames (trace w4) = frames (trace live_world) ∧
    broadcastToLightcable (H := reference_runtime) (remove_event "b2") w4
    = Returned () w5 ∧
    frames (trace w5)
    = frames (trace live_world)
      ++ [JSON_stringify (Runtime := reference_runtime) (remove_event "b2")] ∧
    notified (trace w5)
    = notified (trace live_world) ++ [remove_event "a1"; remove_event "b2"].
Proof.
  apply (X16_reconnect_delivers_later_events_only (H := reference_runtime)
           (remove_event "a1") (remove_event "b2") live_world).
  - reflexivity.
  - by eexists.
  - reflexivity.
  - reflexivity.
Defined.

Lemma X17_witness :
  let acts := [socket_reports ws_error; socket_reports ws_close;
               request_arrives ep_create (request "" body_a1);
               world_moves 1700000002000 false true;
               timer_expires; socket_reports ws_open;
               request_arrives ep_delete (request "a1" VUndefined)] in
  ∃ w', perform_all (H := reference_runtime) acts live_world = Returned () w' ∧
        reconnect_discipline w'.
Proof.
  intros acts.
  apply (X17_reconnect_discipline_is_invariant (H := reference_runtime)
           acts live_world).
  reflexivity.
Defined.

Lemma X18_witness :
  let acts := [request_arrives ep_create (request "" body_a1);
               socket_reports ws_open; timer_expires;
               request_arrives ep_delete (request "a1" VUndefined)] in
  ∃ w', perform_all (H := reference_runtime) acts quiet_world = Returned () w' ∧
        lcws w' = None ∧ timers w' = [] ∧
        frames (trace w') = frames (trace quiet_world).
Proof.
  intros acts.
  apply (X18_no_endpoint_no_frames (H := reference_runtime) acts quiet_world);
    reflexivity.
Defined.

Lemma X19_witness :
  ∃ r1 w1,
    PUT_annotations_id (H := reference_runtime) (request "a1" body_a1) mixed_world
    = Returned r1 w1 ∧ status r1 = 200%nat ∧
    ∀ w1', annotations w1' = annotations w1 → redis_up w1' = true →
      ∃ l w2 record,
        GET_annotations (H := reference_runtime) (request "" VUndefined) w1'
        = Returned {| status := 200; json := VArr l |} w2 ∧
        filter (λ v, has_id "a1" v) l = [record] ∧
        record = VObj [("id", VStr "a1");
                       ("lngLat", VArr [VNum (Dec 11639 (-2)); VNum (Dec 399 (-1))]);
                       ("updatedAt", VNum (Dec (clock mixed_world) 0));
                       ("clientId", VNull)] ∧
        get "existed" record = VUndefined.
Proof.
  apply (X19_update_then_list (H := reference_runtime)
           (request "a1" body_a1) (request "" VUndefined) mixed_world
           [VNum (Dec 11639 (-2)); VNum (Dec 399 (-1))]).
  - reflexivity.
  - simpl. lia.
  - reflexivity.
  - vm_compute. reflexivity.
  - exact mixed_hash_others_carry_no_id.
Defined.
